(** * flyctl deploy: a shallow embedding of
      internal/cli/internal/command/deploy/deploy.go

    The command is sequential glue around collaborators that live in other
    packages (the image resolver, the API client, the tunnel agent, the SSH
    runner, the watchers).  The embedding keeps the control flow of every
    function of the file and turns each collaborator into a field of an
    oracle record; every call to a collaborator is recorded, with its
    arguments, in an event trace.  Go maps are reference values, so map
    objects live in a store that is threaded through the computation. *)

From Stdlib Require Import ZArith Ascii.
From stdpp Require Import base option list strings gmap fin_maps pretty.

(** ** Strings and errors *)

Definition nl : string := String (Ascii.ascii_of_nat 10) "".

Definition nonempty (s : string) : bool := negb (String.eqb s "").

(** Go errors are values.  [errorString] is [errors.New] (and any error a
    collaborator hands back); [wrapError msg e] is [fmt.Errorf (msg ++ "%w") e],
    the only shape of wrapping the file uses. *)
Inductive error : Type :=
| errorString (s : string)
| wrapError (msg : string) (err : error).

Fixpoint Error (e : error) : string :=
  match e with
  | errorString s => s
  | wrapError msg err => msg +:+ Error err
  end.

(** [errors.Unwrap]. *)
Definition Unwrap (e : error) : option error :=
  match e with
  | errorString _ => None
  | wrapError _ err => Some err
  end.

(** [wraps e target]: [target] is on the unwrap chain of [e]
    (what [errors.Is] walks). *)
Inductive wraps : error → error → Prop :=
| wraps_here e : wraps e e
| wraps_step msg e target : wraps e target → wraps (wrapError msg e) target.

(** ** path/filepath on a Unix host

    The lexical functions of Go's standard library that
    [resolveDockerfilePath] calls, written over path components. *)
Module filepath.

Definition is_sep (c : ascii) : bool := Ascii.eqb c "/"%char.

Fixpoint has_sep (s : string) : bool :=
  match s with
  | EmptyString => false
  | String c s' => is_sep c || has_sep s'
  end.

Fixpoint split (s : string) : list string :=
  match s with
  | EmptyString => [""]
  | String c s' =>
      if is_sep c then "" :: split s'
      else match split s' with
           | x :: xs => String c x :: xs
           | [] => [String c ""]
           end
  end.

Fixpoint join_sep (l : list string) : string :=
  match l with
  | [] => ""
  | [x] => x
  | x :: xs => x +:+ "/" +:+ join_sep xs
  end.

Definition IsAbs (path : string) : bool :=
  match path with
  | String c _ => is_sep c
  | EmptyString => false
  end.

(** One step of [Clean]'s scan; [stack] holds the kept components, last
    one first. *)
Definition clean_step (rooted : bool) (stack : list string) (c : string)
  : list string :=
  if String.eqb c "" || String.eqb c "." then stack
  else if String.eqb c ".." then
    match stack with
    | top :: rest => if String.eqb top ".." then c :: stack else rest
    | [] => if rooted then [] else [c]
    end
  else c :: stack.

Definition Clean (path : string) : string :=
  let rooted := IsAbs path in
  let out := join_sep (rev (fold_left (clean_step rooted) (split path) [])) in
  if rooted then "/" +:+ out
  else if String.eqb out "" then "." else out.

(** [Join] of two elements: empty elements are skipped, the rest is joined
    with the separator and cleaned. *)
Definition Join (a b : string) : string :=
  if nonempty a then Clean (a +:+ "/" +:+ b)
  else if nonempty b then Clean b
  else "".

(** [path[:i+1]] for [i] the index of the last separator. *)
Fixpoint upto_last_sep (s : string) : string :=
  match s with
  | EmptyString => ""
  | String c s' =>
      if is_sep c || has_sep s' then String c (upto_last_sep s') else ""
  end.

Definition Dir (path : string) : string := Clean (upto_last_sep path).

(** [Abs]; [getwd] is the outcome of [os.Getwd]. *)
Definition Abs (getwd : error + string) (path : string) : string * option error :=
  if IsAbs path then (Clean path, None)
  else match getwd with
       | inl err => ("", Some err)
       | inr wd => (Join wd path, None)
       end.

End filepath.

(** ** Data model *)

(** Address of a map object in the store. *)
Definition loc := nat.

Module imgsrc.

Record DeploymentImage : Type := {
  ID : string;
  Tag : string;
  Size : Z;
}.

(** [NewDockerDaemonType allowLocal allowRemote], kept as its arguments. *)
Record DockerDaemonType : Type := NewDockerDaemonType {
  allowLocal : bool;
  allowRemote : bool;
}.

(** [NewResolver daemonType client appName io]. *)
Record Resolver : Type := NewResolver {
  daemonType : DockerDaemonType;
  appName : string;
}.

Record RefOptions : Type := {
  ref_AppName : string;
  ref_WorkingDir : string;
  ref_Publish : bool;
  ImageRef : string;
  ref_ImageLabel : string;
}.

Record ImageOptions : Type := {
  AppName : string;
  WorkingDir : string;
  Publish : bool;
  ImageLabel : string;
  NoCache : bool;
  BuildArgs : option loc;
  BuiltIn : string;
  BuiltInSettings : option loc;
  Builder : string;
  Buildpacks : list string;
  DockerfilePath : string;
  Target : string;
}.

End imgsrc.

Module app.

(** The fields of [app.Build] that the command reads.  [Args] and
    [Settings] are Go maps: a reference, or nil. *)
Record Build : Type := {
  Args : option loc;
  Image : string;
  Builtin : string;
  Settings : option loc;
  Builder : string;
  Buildpacks : list string;
}.

(** [new(app.Build)]. *)
Definition new_Build : Build :=
  {| Args := None; Image := ""; Builtin := ""; Settings := None;
     Builder := ""; Buildpacks := [] |}.

(** The values of a definition are opaque to the command, which only
    takes its length and passes it on. *)
Record Config : Type := {
  Path : string;
  Definition_ : gmap string string;
  Build_ : option Build;
}.

End app.

Module api.

Record Organization : Type := { Slug : string }.

Record App : Type := { Name : string; Organization_ : Organization }.

Record Machine : Type := { machine_id : string }.

(** The one field of [api.AppConfig] that the command reads. *)
Record AppConfig : Type := { cfg_Definition : gmap string string }.

Record Release : Type := {
  ID : string;
  Version : Z;
  EvaluationID : string;
  DeploymentStrategy : string;
}.

Record ReleaseCommand : Type := {
  rc_ID : string;
  Command : string;
}.

Record DeployImageInput : Type := {
  AppID : string;
  Image : string;
  Strategy : option string;
  Definition_ : option (gmap string string);
}.

End api.

Module proxy.

Record ConnectParams : Type := {
  Ports : list string;
  App : api.App;
  Dialer : nat;
  RemoteHost : string;
}.

End proxy.

(** The flags the command reads from its context. *)
Record Flags : Type := {
  flag_nix : bool;
  flag_image : string;
  flag_remote_only : bool;
  flag_local_only : bool;
  flag_build_only : bool;
  flag_detach : bool;
  flag_strategy : string;
  flag_dockerfile : string;
  flag_env : list string;
  flag_image_label : string;
  flag_build_arg : list string;
  flag_build_target : string;
  flag_no_cache : bool;
}.

(** What the command reads from [ctx]: the flags, [app.NameFromContext],
    [state.WorkingDirectory] and [app.ConfigFromContext] (nil when there is
    no local configuration file). *)
Record Context : Type := {
  flags : Flags;
  NameFromContext : string;
  WorkingDirectory : string;
  ConfigFromContext : option app.Config;
}.

(** [time.Second], in nanoseconds. *)
Definition Second : Z := 1000000000.

(** ** Events: the calls the command makes, in order *)
Inductive Event : Type :=
| NewTextBlock (msg : option string)
| TbDone (msg : string)
| TbDonef (msg : string)
| TbPrintf (msg : string)
| LoggerDebug (msg : string)
| Println (msg : string)
| FprintfOut (msg : string)
| CallGetConfig (appName : string)
| CallRemoteBuilderMachine (appName : string)
| CallEstablish
| CallConnectToTunnel (slug : string)
| GoProxyConnect (params : proxy.ConnectParams)
| CancelProxy
| Sleep (d : Z)
| DialTimeout (network address : string) (timeout : Z)
| ExecRun (name : string) (args : list string)
| CallRunSSHCommand (a : api.App) (dialer : nat) (addr command : string)
| CallResolveReference (r : imgsrc.Resolver) (opts : imgsrc.RefOptions)
| CallBuildImage (r : imgsrc.Resolver) (opts : imgsrc.ImageOptions)
| CallDeployImage (input : api.DeployImageInput)
| CallWatchReleaseCommand (id : string)
| CallGetAppRelease (appName id : string)
| CallWatchDeployment (evaluationID : string).

(** ** The store: map objects and the number of dials made so far *)
Record Store : Type := {
  maps : gmap loc (gmap string string);
  dials : nat;
}.

(** ** Collaborators

    Each field is the outcome of a function of another package.  A
    function that returns pointers together with an error keeps every
    result as an option, nil being [None], wherever the command goes on to
    dereference the pointer or to test it; functions whose value the
    command only passes on are typed [error + value]. *)
Record Collab : Type := {
  (* package app: accessors of the configuration *)
  Dockerfile : app.Config → string;
  DockerBuildTarget : app.Config → string;
  SetEnvVariables : app.Config → gmap string string → app.Config;
  (* package cmdutil *)
  ParseKVStringsToMap : list string → error + gmap string string;
  (* API client *)
  GetConfig : string → option api.AppConfig * option error;
  DeployImage : api.DeployImageInput →
                option api.Release * option api.ReleaseCommand * option error;
  GetAppRelease : string → string → option api.Release * option error;
  (* package imgsrc *)
  ResolveReference : imgsrc.Resolver → imgsrc.RefOptions →
                     gmap loc (gmap string string) →
                     option imgsrc.DeploymentImage * option error;
  BuildImage : imgsrc.Resolver → imgsrc.ImageOptions →
               gmap loc (gmap string string) →
               option imgsrc.DeploymentImage * option error;
  NewDeploymentTag : string → string → string;
  (* package watch *)
  watch_ReleaseCommand : string → option error;
  watch_Deployment : string → option error;
  (* builder, agent, machines, ssh, flyctl *)
  RemoteBuilderMachine : string →
                         option api.Machine * option api.App * option error;
  Establish : error + nat;
  ConnectToTunnel : nat → string → error + nat;
  IpAddress : option api.Machine → string;
  RunSSHCommand : api.App → nat → string → string → error + string;
  GetAPIToken : string;
  (* the operating system *)
  Getwd : error + string;
  net_DialTimeout : nat → option error;
  exec_Run : string → list string → option error;
  (* formatting helpers *)
  ToUpper : string → string;
  humanize_Bytes : Z → string;
}.

(** ** The monad: a store, a trace, and Go's panic *)
Inductive Res (A : Type) : Type :=
| Done (a : A)
| Panic (msg : string).
Arguments Done {A} a.
Arguments Panic {A} msg.

Definition M (A : Type) : Type := Store → Res A * Store * list Event.

Definition ret {A} (a : A) : M A := λ s, (Done a, s, []).

Definition bind {A B} (m : M A) (k : A → M B) : M B :=
  λ s, match m s with
       | (Done a, s1, t1) =>
           let '(r, s2, t2) := k a s1 in (r, s2, t1 ++ t2)
       | (Panic msg, s1, t1) => (Panic msg, s1, t1)
       end.

#[global] Instance M_ret : MRet M := @ret.
#[global] Instance M_bind : MBind M := λ A B k m, bind m k.

Definition emit (e : Event) : M unit := λ s, (Done tt, s, [e]).

Definition panic {A} (msg : string) : M A := λ s, (Panic msg, s, []).

Definition nil_dereference : string :=
  "invalid memory address or nil pointer dereference".

(** [defer d] placed before [body]: [d] runs when the function returns,
    whatever [body] returned, and does not change the results. *)
Definition defer {A} (d : M unit) (body : M A) : M A :=
  λ s, let '(r, s1, t1) := body s in
       let '(_, s2, t2) := d s1 in
       (r, s2, t1 ++ t2).

(** Projections of a finished computation. *)
Definition result {A} (x : Res A * Store * list Event) : Res A := x.1.1.
Definition store {A} (x : Res A * Store * list Event) : Store := x.1.2.
Definition trace {A} (x : Res A * Store * list Event) : list Event := x.2.

(** [make(map[string]string)]. *)
Definition make_map : M loc :=
  λ s, let l := fresh (dom (maps s)) in
       (Done l, {| maps := <[l := ∅]> (maps s); dials := dials s |}, []).

(** [for k, v := range src { dst[k] = v }] on map contents. *)
Definition range_assign (src dst : gmap string string) : gmap string string :=
  map_fold (λ k v acc, <[k := v]> acc) dst src.

(** The same loop on the map object at [l]. *)
Definition range_assign_at (l : loc) (src : gmap string string) : M unit :=
  λ s, (Done tt,
        {| maps := <[l := range_assign src (default ∅ (maps s !! l))]> (maps s);
           dials := dials s |},
        []).

(** A collaborator that is handed map references may read the map objects. *)
Definition with_maps {A} (f : gmap loc (gmap string string) → A) : M A :=
  λ s, (Done (f (maps s)), s, []).

(** ** The functions of deploy.go *)

Section deploy.

Variable c : Collab.
Variable ctx : Context.

(** [waitForLocalPort]: one [net.DialTimeout] with a timeout of
    [time.Second]; the dialled connection is dropped, the error returned.
    The outcome of the n-th dial of the run is [net_DialTimeout c n]. *)
Definition waitForLocalPort (port : string) : M (option error) :=
  let timeout := Second in
  λ s, (Done (net_DialTimeout c (dials s)),
        {| maps := maps s; dials := S (dials s) |},
        [DialTimeout "tcp" ("localhost:" +:+ port) timeout]).

(** Modelled from the spec: [retry.Retry] of package pkg/retry, whose
    source is not in this file.  Section 4.1: invoke the function up to N
    times; return success on the first success; return a
    [RetriesExhausted] error wrapping the last underlying error if all
    attempts fail.  With no attempt at all nothing has failed. *)
Definition RetriesExhausted (last : error) : error :=
  wrapError "retries exhausted: " last.

(** Modelled from the spec: the loop of [retry.Retry]; [last] is the error
    of the latest failed attempt. *)
Fixpoint retry_loop (fn : M (option error)) (attempts : nat)
         (last : option error) : M (option error) :=
  match attempts with
  | O => mret (RetriesExhausted <$> last)
  | S n =>
      err ← fn;
      match err with
      | None => mret None
      | Some e => retry_loop fn n (Some e)
      end
  end.

(** Modelled from the spec: [retry.Retry fn attempts]. *)
Definition Retry (fn : M (option error)) (attempts : nat) : M (option error) :=
  retry_loop fn attempts None.

(** The closure [fn] of [NixSourceBuild]. *)
Definition NixSourceBuild_fn : M (option error) :=
  emit (Sleep (1 * Second));;
  waitForLocalPort "8873".

Definition NixSourceBuild (workingDirectory : string)
  : M (option imgsrc.DeploymentImage * option error) :=
  let appName := NameFromContext ctx in
  emit (CallRemoteBuilderMachine appName);;
  let '(builderMachine, builderApp, err) := RemoteBuilderMachine c appName in
  match err with
  | Some err => mret (None, Some err)
  | None =>
  emit CallEstablish;;
  match Establish c with
  | inl err => mret (None, Some err)
  | inr agentclient =>
  (* builderApp.Organization.Slug *)
  match builderApp with
  | None => panic nil_dereference
  | Some builderApp =>
  let slug := api.Slug (api.Organization_ builderApp) in
  emit (CallConnectToTunnel slug);;
  match ConnectToTunnel c agentclient slug with
  | inl err => mret (None, Some err)
  | inr dialer =>
  let params :=
    {| proxy.Ports := ["8873"; "873"];
       proxy.App := builderApp;
       proxy.Dialer := dialer;
       proxy.RemoteHost := IpAddress c builderMachine |} in
  (* proxyCtx, cancelProxy := context.WithCancel(ctx); defer cancelProxy() *)
  defer (emit CancelProxy) (
    emit (GoProxyConnect params);;
    err ← Retry NixSourceBuild_fn 10;
    match err with
    | Some e =>
        mret (None,
              Some (wrapError "rsync proxy failed to connect after 10 seconds: " e))
    | None =>
    emit (FprintfOut
            ("Proxy connected. Syncing source code to the remote builder "
             +:+ api.Name builderApp +:+ nl));;
    let name := "/usr/bin/rsync" in
    let args := ["-Dtlcrv"; "--exclude-from=.dockerignore"; workingDirectory;
                 "rsync://root@localhost:8873/data"] in
    emit (ExecRun name args);;
    match exec_Run c name args with
    | Some e => emit (Println (Error (wrapError "code rsync failed: " e)))
    | None => mret tt
    end;;
    emit (Println "Running Nix build...");;
    let imageTag := NewDeploymentTag c appName "" in
    let builderAddress := "[" +:+ IpAddress c builderMachine +:+ "]" in
    let command :=
      ("/data/source/" +:+ appName +:+ "/bin/build.sh") +:+ " "
      +:+ GetAPIToken c +:+ " " +:+ imageTag in
    emit (CallRunSSHCommand builderApp dialer builderAddress command);;
    match RunSSHCommand c builderApp dialer builderAddress command with
    | inl err => mret (None, Some (wrapError "" err))
    | inr resp =>
        emit (Println resp);;
        let di := {| imgsrc.Size := 10;
                     imgsrc.Tag := imageTag;
                     imgsrc.ID := imageTag |} in
        mret (Some di, None)
    end
    end)
  end end end end.

Definition fetchImageRef (cfg : option app.Config) : string * option error :=
  let ref := flag_image (flags ctx) in
  if nonempty ref then (ref, None)
  else
    match cfg with
    | Some cfg' =>
        match app.Build_ cfg' with
        | Some b =>
            let ref := app.Image b in
            if nonempty ref then (ref, None) else (ref, None)
        | None => (ref, None)
        end
    | None => (ref, None)
    end.

Definition mergeBuildArgs (args : option loc) : M (option loc * option error) :=
  args ← match args with
         | None => make_map
         | Some l => mret l
         end;
  (* set additional Docker build args from the command line, overriding
     similar ones from the config *)
  match ParseKVStringsToMap c (flag_build_arg (flags ctx)) with
  | inl err => mret (None, Some (wrapError "invalid build args: " err))
  | inr cliBuildArgs =>
      range_assign_at args cliBuildArgs;;
      mret (Some args, None)
  end.

(** [resolveDockerfilePath]; the deferred function runs last and may
    replace both results. *)
Definition resolveDockerfilePath (appConfig : app.Config) : string * option error :=
  let '(path, err) :=
    let path := Dockerfile c appConfig in
    if nonempty path then
      (filepath.Join (filepath.Dir (app.Path appConfig)) path, None)
    else
      (flag_dockerfile (flags ctx), @None error)
  in
  match err with
  | None => if nonempty path then filepath.Abs (Getwd c) path else (path, err)
  | Some _ => (path, err)
  end.

Definition determineImage (appConfig : option app.Config)
  : M (option imgsrc.DeploymentImage * option error) :=
  emit (NewTextBlock (Some "Building image"));;
  let workingDirectory := WorkingDirectory ctx in
  (* Bypass Docker based builds in favor of syncing source trees directly
     to the remote builder *)
  if flag_nix (flags ctx) then
    '(img, err) ← NixSourceBuild workingDirectory;
    match err with
    | Some e => mret (None, Some e)
    | None => mret (img, None)
    end
  else
  let daemonType :=
    imgsrc.NewDockerDaemonType (negb (flag_remote_only (flags ctx)))
                               (negb (flag_local_only (flags ctx))) in
  let appName := NameFromContext ctx in
  let resolver := imgsrc.NewResolver daemonType appName in
  let '(imageRef, err) := fetchImageRef appConfig in
  match err with
  | Some e => mret (None, Some e)
  | None =>
  (* we're using a pre-built Docker image *)
  if nonempty imageRef then
    let opts :=
      {| imgsrc.ref_AppName := NameFromContext ctx;
         imgsrc.ref_WorkingDir := WorkingDirectory ctx;
         imgsrc.ref_Publish := negb (flag_build_only (flags ctx));
         imgsrc.ImageRef := imageRef;
         imgsrc.ref_ImageLabel := flag_image_label (flags ctx) |} in
    emit (CallResolveReference resolver opts);;
    with_maps (ResolveReference c resolver opts)
  else
  match appConfig with
  | None => panic nil_dereference
  | Some appConfig =>
  let build := match app.Build_ appConfig with
               | Some b => b
               | None => app.new_Build
               end in
  '(buildArgs, err) ← mergeBuildArgs (app.Args build);
  match err with
  | Some e => mret (None, Some e)
  | None =>
  (* We're building from source *)
  let '(dockerfilePath, err) := resolveDockerfilePath appConfig in
  match err with
  | Some e => mret (None, Some e)
  | None =>
  let target :=
    let target := DockerBuildTarget c appConfig in
    if nonempty target then target
    else
      let target := flag_build_target (flags ctx) in
      if nonempty target then target else ""
  in
  let opts :=
    {| imgsrc.AppName := NameFromContext ctx;
       imgsrc.WorkingDir := WorkingDirectory ctx;
       imgsrc.Publish := negb (flag_build_only (flags ctx));
       imgsrc.ImageLabel := flag_image_label (flags ctx);
       imgsrc.NoCache := flag_no_cache (flags ctx);
       imgsrc.BuildArgs := buildArgs;
       imgsrc.BuiltIn := app.Builtin build;
       imgsrc.BuiltInSettings := app.Settings build;
       imgsrc.Builder := app.Builder build;
       imgsrc.Buildpacks := app.Buildpacks build;
       imgsrc.DockerfilePath := dockerfilePath;
       imgsrc.Target := target |} in
  (* finally, build the image *)
  emit (CallBuildImage resolver opts);;
  '(img, err) ← with_maps (BuildImage c resolver opts);
  let err := match err, img with
             | None, None => Some (errorString "no image specified")
             | _, _ => err
             end in
  match err, img with
  | None, Some i =>
      emit (TbPrintf ("image: " +:+ imgsrc.Tag i +:+ nl));;
      emit (TbPrintf ("image size: "
                      +:+ humanize_Bytes c (imgsrc.Size i `mod` 2 ^ 64)%Z +:+ nl))
  | _, _ => mret tt
  end;;
  mret (img, err)
  end end end end.

(** [determineAppConfig] fetches the app config from a local file, or in
    its absence, from the API. *)
Definition determineAppConfig : M (option app.Config * option error) :=
  emit (NewTextBlock (Some "Verifying app config"));;
  let fetched : M (option app.Config * option error) :=
    match ConfigFromContext ctx with
    | Some cfg => mret (Some cfg, None)
    | None =>
        emit (LoggerDebug "no local app config detected; fetching from backend ...");;
        emit (CallGetConfig (NameFromContext ctx));;
        let '(apiConfig, err) := GetConfig c (NameFromContext ctx) in
        match err with
        | Some err =>
            mret (None, Some (wrapError "failed fetching existing app config: " err))
        | None =>
            (* apiConfig.Definition *)
            match apiConfig with
            | None => panic nil_dereference
            | Some apiConfig =>
                mret (Some {| app.Path := "";
                              app.Definition_ := api.cfg_Definition apiConfig;
                              app.Build_ := None |}, None)
            end
        end
    end in
  '(cfg, err) ← fetched;
  match err with
  | Some e => mret (cfg, Some e)
  | None =>
  let env := flag_env (flags ctx) in
  '(cfg, err) ←
    (if bool_decide (0 < length env) then
       match ParseKVStringsToMap c env with
       | inl err => mret (cfg, Some (wrapError "failed parsing environment: " err))
       | inr parsedEnv =>
           match cfg with
           | None => panic nil_dereference
           | Some cfg' => mret (Some (SetEnvVariables c cfg' parsedEnv), None)
           end
       end
     else mret (cfg, None));
  match err with
  | Some e => mret (cfg, Some e)
  | None =>
      emit (TbDone "Verified app config");;
      mret (cfg, None)
  end
  end.

Definition createRelease (appConfig : option app.Config)
           (img : option imgsrc.DeploymentImage)
  : M (option api.Release * option api.ReleaseCommand * option error) :=
  emit (NewTextBlock (Some "Creating release"));;
  match img with
  | None => panic nil_dereference
  | Some img =>
  (* Set the deployment strategy *)
  let strategy :=
    let val := flag_strategy (flags ctx) in
    if nonempty val then Some (ToUpper c val) else None in
  match appConfig with
  | None => panic nil_dereference
  | Some appConfig =>
  let definition :=
    if bool_decide (0 < size (app.Definition_ appConfig))
    then Some (app.Definition_ appConfig) else None in
  let input :=
    {| api.AppID := NameFromContext ctx;
       api.Image := imgsrc.Tag img;
       api.Strategy := strategy;
       api.Definition_ := definition |} in
  (* Start deployment of the determined image *)
  emit (CallDeployImage input);;
  let '(release, releaseCommand, err) := DeployImage c input in
  match err with
  | None =>
      match release with
      | None => panic nil_dereference
      | Some r =>
          emit (TbDonef ("release v" +:+ pretty (api.Version r) +:+ " created" +:+ nl))
      end
  | Some _ => mret tt
  end;;
  mret (release, releaseCommand, err)
  end end.

Definition run : M (option error) :=
  '(appConfig, err) ← determineAppConfig;
  match err with
  | Some e => mret (Some e)
  | None =>
  (* Fetch an image ref or build from source to get the final image
     reference to deploy *)
  '(img, err) ← determineImage appConfig;
  match err with
  | Some e =>
      mret (Some (wrapError "failed to fetch an image or build from source: " e))
  | None =>
  if flag_build_only (flags ctx) then mret None
  else
  '(release, releaseCommand, err) ← createRelease appConfig img;
  match err with
  | Some e => mret (Some e)
  | None =>
  if flag_detach (flags ctx) then mret None
  else
  emit (NewTextBlock None);;
  emit (TbDone "You can detach the terminal anytime without stopping the deployment");;
  (* Run the pre-deployment release command if it's set *)
  x ← match releaseCommand with
      | Some releaseCommand =>
          emit (NewTextBlock
                  (Some ("Release command detected: "
                         +:+ api.Command releaseCommand +:+ nl)));;
          emit (TbDone "This release will not be available until the release command succeeds.");;
          emit (CallWatchReleaseCommand (api.rc_ID releaseCommand));;
          match watch_ReleaseCommand c (api.rc_ID releaseCommand) with
          | Some e => mret (inl (Some e))
          | None =>
              match release with
              | None => panic nil_dereference
              | Some r =>
                  emit (CallGetAppRelease (NameFromContext ctx) (api.ID r));;
                  let '(release, err) :=
                    GetAppRelease c (NameFromContext ctx) (api.ID r) in
                  match err with
                  | Some e => mret (inl (Some e))
                  | None => mret (inr release)
                  end
              end
          end
      | None => mret (inr release)
      end;
  match x with
  | inl early => mret early
  | inr release =>
  match release with
  | None => panic nil_dereference
  | Some release =>
  if String.eqb (api.DeploymentStrategy release) "IMMEDIATE" then
    emit (LoggerDebug "immediate deployment strategy, nothing to monitor");;
    mret None
  else
    emit (CallWatchDeployment (api.EvaluationID release));;
    let err := watch_Deployment c (api.EvaluationID release) in
    mret err
  end end end end end.

End deploy.

(** ** Reading traces *)

(** [m] only ever emits events that satisfy [P]. *)
Definition emits_only {A} (P : Event → bool) (m : M A) : Prop :=
  ∀ s, forallb P (trace (m s)) = true.

Definition is_CancelProxy (e : Event) : bool :=
  match e with CancelProxy => true | _ => false end.

Definition is_GoProxyConnect (e : Event) : bool :=
  match e with GoProxyConnect _ => true | _ => false end.

Definition is_CallBuildImage (e : Event) : bool :=
  match e with CallBuildImage _ _ => true | _ => false end.

Definition is_CallDeployImage (e : Event) : bool :=
  match e with CallDeployImage _ => true | _ => false end.

Definition is_CallWatchDeployment (e : Event) : bool :=
  match e with CallWatchDeployment _ => true | _ => false end.

(** What follows a release submission: the release-command watch, the
    re-fetch of the release and the deployment watch. *)
Definition is_wait (e : Event) : bool :=
  match e with
  | CallWatchReleaseCommand _ | CallGetAppRelease _ _ | CallWatchDeployment _ => true
  | _ => false
  end.

(** The calls each stage can make. *)
Definition config_event (e : Event) : bool :=
  match e with
  | NewTextBlock _ | LoggerDebug _ | CallGetConfig _ | TbDone _ => true
  | _ => false
  end.

Definition nix_event (e : Event) : bool :=
  match e with
  | NewTextBlock _ | CallRemoteBuilderMachine _ | CallEstablish
  | CallConnectToTunnel _ | GoProxyConnect _ | CancelProxy | Sleep _
  | DialTimeout _ _ _ | FprintfOut _ | ExecRun _ _ | Println _
  | CallRunSSHCommand _ _ _ _ => true
  | _ => false
  end.

Definition docker_event (e : Event) : bool :=
  match e with
  | NewTextBlock _ | CallResolveReference _ _ | CallBuildImage _ _
  | TbPrintf _ => true
  | _ => false
  end.

Definition release_event (e : Event) : bool :=
  match e with
  | NewTextBlock _ | CallDeployImage _ | TbDonef _ => true
  | _ => false
  end.

(** The events of [k] rounds of the readiness closure: a sleep of one
    second, then a dial of the local port with a timeout of one second. *)
Fixpoint attempts (k : nat) : list Event :=
  match k with
  | O => []
  | S k' => Sleep Second :: DialTimeout "tcp" "localhost:8873" Second :: attempts k'
  end.

(** The release the dispatch step of [run] looks at: the submitted one, or,
    when a release command was produced and succeeded, the re-fetched one. *)
Definition release_at_dispatch (c : Collab) (ctx : Context)
           (release : api.Release) (releaseCommand : option api.ReleaseCommand)
  : option api.Release :=
  match releaseCommand with
  | None => Some release
  | Some rc =>
      match watch_ReleaseCommand c (api.rc_ID rc) with
      | Some _ => None
      | None =>
          match GetAppRelease c (NameFromContext ctx) (api.ID release) with
          | (Some r, None) => Some r
          | _ => None
          end
      end
  end.

(** [c] with the outcome of the external sync process replaced. *)
Definition with_exec_Run (c : Collab) (r : string → list string → option error)
  : Collab :=
  {| Dockerfile := Dockerfile c;
     DockerBuildTarget := DockerBuildTarget c;
     SetEnvVariables := SetEnvVariables c;
     ParseKVStringsToMap := ParseKVStringsToMap c;
     GetConfig := GetConfig c;
     DeployImage := DeployImage c;
     GetAppRelease := GetAppRelease c;
     ResolveReference := ResolveReference c;
     BuildImage := BuildImage c;
     NewDeploymentTag := NewDeploymentTag c;
     watch_ReleaseCommand := watch_ReleaseCommand c;
     watch_Deployment := watch_Deployment c;
     RemoteBuilderMachine := RemoteBuilderMachine c;
     Establish := Establish c;
     ConnectToTunnel := ConnectToTunnel c;
     IpAddress := IpAddress c;
     RunSSHCommand := RunSSHCommand c;
     GetAPIToken := GetAPIToken c;
     Getwd := Getwd c;
     net_DialTimeout := net_DialTimeout c;
     exec_Run := r;
     ToUpper := ToUpper c;
     humanize_Bytes := humanize_Bytes c |}.

(** ** Three statements of the specification, as they are worded *)

(** On the source-build path the build target handed to the Docker
    resolver is the command-line flag whenever that flag is non-empty. *)
Definition build_target_flag_wins (c : Collab) (ctx : Context)
           (cfg : app.Config) (s : Store) : Prop :=
  nonempty (flag_build_target (flags ctx)) = true →
  ∀ r opts, CallBuildImage r opts ∈ trace (determineImage c ctx (Some cfg) s) →
            imgsrc.Target opts = flag_build_target (flags ctx).

(** A command-line Dockerfile path, when given, is the one resolved. *)
Definition dockerfile_flag_wins (c : Collab) (ctx : Context)
           (cfg : app.Config) : Prop :=
  nonempty (flag_dockerfile (flags ctx)) = true →
  resolveDockerfilePath c ctx cfg
  = filepath.Abs (Getwd c) (flag_dockerfile (flags ctx)).

(** The resolver never returns with both the image and the error absent. *)
Definition image_or_error (c : Collab) (ctx : Context)
           (cfg : option app.Config) (s : Store) : Prop :=
  result (determineImage c ctx cfg s) ≠ Done (None, None).

(** ** Concrete inputs *)
Module sample.

Definition flags0 : Flags :=
  {| flag_nix := false; flag_image := ""; flag_remote_only := false;
     flag_local_only := false; flag_build_only := false;
     flag_detach := false; flag_strategy := ""; flag_dockerfile := "";
     flag_env := []; flag_image_label := ""; flag_build_arg := [];
     flag_build_target := ""; flag_no_cache := false |}.

Definition build0 : app.Build :=
  {| app.Args := Some 0; app.Image := ""; app.Builtin := "";
     app.Settings := None; app.Builder := ""; app.Buildpacks := [] |}.

Definition config0 : app.Config :=
  {| app.Path := "/proj/fly.toml"; app.Definition_ := ∅;
     app.Build_ := Some build0 |}.

Definition ctx_of (f : Flags) : Context :=
  {| flags := f; NameFromContext := "demo"; WorkingDirectory := "/proj";
     ConfigFromContext := Some config0 |}.

(** The configuration's build arguments live at address 0. *)
Definition store0 : Store :=
  {| maps := {[ 0 := {[ "A" := "1"; "B" := "2" ]} ]}; dials := 0 |}.

Definition image0 : imgsrc.DeploymentImage :=
  {| imgsrc.ID := "sha256:0"; imgsrc.Tag := "registry/demo:1"; imgsrc.Size := 4096 |}.

Definition release0 : api.Release :=
  {| api.ID := "r1"; api.Version := 7; api.EvaluationID := "ev1";
     api.DeploymentStrategy := "CANARY" |}.

Definition builder0 : api.Machine * api.App :=
  ({| api.machine_id := "m1" |},
   {| api.Name := "fly-builder"; api.Organization_ := {| api.Slug := "acme" |} |}).

(** Collaborators that all succeed; the forwarded port accepts the third
    dial; the configuration declares [dockerfile] and [target]; the
    command-line build arguments parse to [cli]. *)
Definition collab (dockerfile target : string) (cli : gmap string string)
  : Collab :=
  {| Dockerfile := λ _, dockerfile;
     DockerBuildTarget := λ _, target;
     SetEnvVariables := λ cfg _, cfg;
     ParseKVStringsToMap := λ _, inr cli;
     GetConfig := λ _, (Some {| api.cfg_Definition := ∅ |}, None);
     DeployImage := λ _, (Some release0, None, None);
     GetAppRelease := λ _ _, (Some release0, None);
     ResolveReference := λ _ _ _, (Some image0, None);
     BuildImage := λ _ _ _, (Some image0, None);
     NewDeploymentTag := λ a _, "registry/" +:+ a +:+ ":deployment";
     watch_ReleaseCommand := λ _, None;
     watch_Deployment := λ _, None;
     RemoteBuilderMachine := λ _, (Some builder0.1, Some builder0.2, None);
     Establish := inr 1;
     ConnectToTunnel := λ _ _, inr 2;
     IpAddress := λ _, "fdaa::3";
     RunSSHCommand := λ _ _ _ _, inr "built";
     GetAPIToken := "token";
     Getwd := inr "/proj";
     net_DialTimeout := λ n, if bool_decide (n < 2) then Some (errorString "connection refused") else None;
     exec_Run := λ _ _, None;
     ToUpper := λ x, x;
     humanize_Bytes := λ _, "4.1 kB" |}.

(** [flags0] with the flags the examples vary. *)
Definition flags_with (nix build_only detach : bool)
           (image dockerfile build_target : string) : Flags :=
  {| flag_nix := nix; flag_image := image; flag_remote_only := false;
     flag_local_only := false; flag_build_only := build_only;
     flag_detach := detach; flag_strategy := ""; flag_dockerfile := dockerfile;
     flag_env := []; flag_image_label := ""; flag_build_arg := [];
     flag_build_target := build_target; flag_no_cache := false |}.

(** [c] with a reference resolver that finds nothing and reports nothing. *)
Definition with_silent_ResolveReference (c : Collab) : Collab :=
  {| Dockerfile := Dockerfile c;
     DockerBuildTarget := DockerBuildTarget c;
     SetEnvVariables := SetEnvVariables c;
     ParseKVStringsToMap := ParseKVStringsToMap c;
     GetConfig := GetConfig c;
     DeployImage := DeployImage c;
     GetAppRelease := GetAppRelease c;
     ResolveReference := λ _ _ _, (None, None);
     BuildImage := BuildImage c;
     NewDeploymentTag := NewDeploymentTag c;
     watch_ReleaseCommand := watch_ReleaseCommand c;
     watch_Deployment := watch_Deployment c;
     RemoteBuilderMachine := RemoteBuilderMachine c;
     Establish := Establish c;
     ConnectToTunnel := ConnectToTunnel c;
     IpAddress := IpAddress c;
     RunSSHCommand := RunSSHCommand c;
     GetAPIToken := GetAPIToken c;
     Getwd := Getwd c;
     net_DialTimeout := net_DialTimeout c;
     exec_Run := exec_Run c;
     ToUpper := ToUpper c;
     humanize_Bytes := humanize_Bytes c |}.

(** [c] with a release API that creates [submitted] together with
    [releaseCommand] and later reports the release as [refetched]. *)
Definition with_releases (c : Collab) (submitted : api.Release)
           (releaseCommand : option api.ReleaseCommand)
           (refetched : api.Release) : Collab :=
  {| Dockerfile := Dockerfile c;
     DockerBuildTarget := DockerBuildTarget c;
     SetEnvVariables := SetEnvVariables c;
     ParseKVStringsToMap := ParseKVStringsToMap c;
     GetConfig := GetConfig c;
     DeployImage := λ _, (Some submitted, releaseCommand, None);
     GetAppRelease := λ _ _, (Some refetched, None);
     ResolveReference := ResolveReference c;
     BuildImage := BuildImage c;
     NewDeploymentTag := NewDeploymentTag c;
     watch_ReleaseCommand := watch_ReleaseCommand c;
     watch_Deployment := watch_Deployment c;
     RemoteBuilderMachine := RemoteBuilderMachine c;
     Establish := Establish c;
     ConnectToTunnel := ConnectToTunnel c;
     IpAddress := IpAddress c;
     RunSSHCommand := RunSSHCommand c;
     GetAPIToken := GetAPIToken c;
     Getwd := Getwd c;
     net_DialTimeout := net_DialTimeout c;
     exec_Run := exec_Run c;
     ToUpper := ToUpper c;
     humanize_Bytes := humanize_Bytes c |}.

Definition release_immediate : api.Release :=
  {| api.ID := "r1"; api.Version := 7; api.EvaluationID := "";
     api.DeploymentStrategy := "IMMEDIATE" |}.

Definition release_command0 : api.ReleaseCommand :=
  {| api.rc_ID := "rc1"; api.Command := "bin/migrate" |}.

Definition proxy_params0 : proxy.ConnectParams :=
  {| proxy.Ports := ["8873"; "873"]; proxy.App := builder0.2;
     proxy.Dialer := 2; proxy.RemoteHost := "fdaa::3" |}.

End sample.

(** ** Counting calls *)

Fixpoint count_events (P : Event → bool) (t : list Event) : nat :=
  match t with
  | [] => 0
  | e :: t' => (if P e then 1 else 0) + count_events P t'
  end.

(** [m] emits at most [n] events that satisfy [P]. *)
Definition emits_at_most {A} (P : Event → bool) (n : nat) (m : M A) : Prop :=
  ∀ s, count_events P (trace (m s)) ≤ n.

Definition is_CallResolveReference (e : Event) : bool :=
  match e with CallResolveReference _ _ => true | _ => false end.

Definition is_CallRunSSHCommand (e : Event) : bool :=
  match e with CallRunSSHCommand _ _ _ _ => true | _ => false end.


Definition is_CallGetConfig (e : Event) : bool :=
  match e with CallGetConfig _ => true | _ => false end.

(** The calls that produce an image: one per acquisition path. *)
Definition is_acquire (e : Event) : bool :=
  is_CallResolveReference e || is_CallBuildImage e || is_CallRunSSHCommand e.

(** The three calls that set the tunnel up. *)
Definition setup_event (e : Event) : bool :=
  match e with
  | CallRemoteBuilderMachine _ | CallEstablish | CallConnectToTunnel _ => true
  | _ => false
  end.

(** Collaborators that never answer with a nil value and a nil error. *)
Definition well_behaved (c : Collab) : Prop :=
  (∀ r opts m, ResolveReference c r opts m ≠ (None, None))
  ∧ (∀ input rc, DeployImage c input ≠ (None, rc, None))
  ∧ (∀ a id, GetAppRelease c a id ≠ (None, None))
  ∧ (∀ a, GetConfig c a ≠ (None, None))
  ∧ (∀ a m, RemoteBuilderMachine c a ≠ (m, None, None)).

(** ** More concrete inputs *)
Module sample2.

(** Collaborators given by the outcomes that the examples vary; the rest is
    as in [sample.collab]. *)
Definition collab_of
           (parse : list string → error + gmap string string)
           (getconfig : option api.AppConfig * option error)
           (build : option imgsrc.DeploymentImage * option error)
           (deploy : option api.Release * option api.ReleaseCommand * option error)
           (watchrc : option error)
           (refetch : option api.Release * option error)
           (builder : option api.Machine * option api.App * option error)
           (dial : nat → option error)
           (ssh : error + string)
           (getwd : error + string) : Collab :=
  {| Dockerfile := λ _, "";
     DockerBuildTarget := λ _, "";
     SetEnvVariables := λ cfg _, cfg;
     ParseKVStringsToMap := parse;
     GetConfig := λ _, getconfig;
     DeployImage := λ _, deploy;
     GetAppRelease := λ _ _, refetch;
     ResolveReference := λ _ _ _, (Some sample.image0, None);
     BuildImage := λ _ _ _, build;
     NewDeploymentTag := λ a _, "registry/" +:+ a +:+ ":deployment";
     watch_ReleaseCommand := λ _, watchrc;
     watch_Deployment := λ _, None;
     RemoteBuilderMachine := λ _, builder;
     Establish := inr 1;
     ConnectToTunnel := λ _ _, inr 2;
     IpAddress := λ _, "fdaa::3";
     RunSSHCommand := λ _ _ _ _, ssh;
     GetAPIToken := "token";
     Getwd := getwd;
     net_DialTimeout := dial;
     exec_Run := λ _ _, None;
     ToUpper := λ x, x;
     humanize_Bytes := λ _, "4.1 kB" |}.

Definition boom : error := errorString "boom".

Definition config_ok : option api.AppConfig * option error :=
  (Some {| api.cfg_Definition := ∅ |}, None).

Definition builder_ok : option api.Machine * option api.App * option error :=
  (Some sample.builder0.1, Some sample.builder0.2, None).

Definition builder_fail : option api.Machine * option api.App * option error :=
  (None, None, Some boom).

(** Everything succeeds; the port accepts the first dial. *)
Definition ok : Collab :=
  collab_of (λ _, inr ∅) config_ok (Some sample.image0, None)
            (Some sample.release0, None, None) None (Some sample.release0, None)
            builder_ok (λ _, None) (inr "built") (inr "/proj").

Definition ctx_without_config (f : Flags) : Context :=
  {| flags := f; NameFromContext := "demo"; WorkingDirectory := "/proj";
     ConfigFromContext := None |}.

End sample2.

(** * Properties *)

(** ** The monad *)

Lemma bind_run {A B} (m : M A) (k : A → M B) s a s1 t1 :
  m s = (Done a, s1, t1) →
  (m ≫= k) s = ((k a s1).1, t1 ++ (k a s1).2).
Proof.
  intros H. unfold mbind, M_bind, bind. rewrite H.
  destruct (k a s1) as [[r s2] t2]. reflexivity.
Qed.

Lemma bind_panic {A B} (m : M A) (k : A → M B) s msg s1 t1 :
  m s = (Panic msg, s1, t1) →
  (m ≫= k) s = (Panic msg, s1, t1).
Proof. intros H. unfold mbind, M_bind, bind. rewrite H. reflexivity. Qed.

Lemma trace_bind {A B} (m : M A) (k : A → M B) s :
  trace ((m ≫= k) s)
  = match result (m s) with
    | Done a => trace (m s) ++ trace (k a (store (m s)))
    | Panic _ => trace (m s)
    end.
Proof.
  unfold mbind, M_bind, bind, trace, result, store.
  destruct (m s) as [[[a|msg] s1] t1]; simpl; [|reflexivity].
  destruct (k a s1) as [[r s2] t2]. reflexivity.
Qed.

Lemma trace_emit_bind {B} e (k : unit → M B) s :
  trace ((emit e ≫= k) s) = e :: trace (k tt s).
Proof.
  unfold mbind, M_bind, bind, emit, trace. simpl.
  destruct (k tt s) as [[r s2] t2]. reflexivity.
Qed.

Lemma trace_defer {A} (d : M unit) (body : M A) s :
  trace (defer d body s) = trace (body s) ++ trace (d (store (body s))).
Proof.
  unfold defer, trace, store. destruct (body s) as [[r s1] t1]. simpl.
  destruct (d s1) as [[u s2] t2]. reflexivity.
Qed.

(** ** Events a computation can emit *)
Section emits_only.

Context (P : Event → bool).

Lemma eo_ret {A} (a : A) : emits_only P (mret a).
Proof. intros s. reflexivity. Qed.

Lemma eo_panic {A} msg : emits_only P (@panic A msg).
Proof. intros s. reflexivity. Qed.

Lemma eo_emit e : P e = true → emits_only P (emit e).
Proof. intros H s. simpl. rewrite H. reflexivity. Qed.

Lemma eo_bind {A B} (m : M A) (k : A → M B) :
  emits_only P m → (∀ a, emits_only P (k a)) → emits_only P (m ≫= k).
Proof.
  intros Hm Hk s. rewrite trace_bind.
  destruct (result (m s)); [|apply Hm].
  rewrite forallb_app, Hm, Hk. reflexivity.
Qed.

Lemma eo_defer {A} (d : M unit) (body : M A) :
  emits_only P d → emits_only P body → emits_only P (defer d body).
Proof.
  intros Hd Hb s. unfold defer.
  specialize (Hb s). destruct (body s) as [[r s1] t1].
  specialize (Hd s1). destruct (d s1) as [[u s2] t2].
  unfold trace in *; simpl in *. rewrite forallb_app, Hb, Hd. reflexivity.
Qed.

Lemma eo_with_maps {A} (f : gmap loc (gmap string string) → A) :
  emits_only P (with_maps f).
Proof. intros s. reflexivity. Qed.

Lemma eo_make_map : emits_only P make_map.
Proof. intros s. reflexivity. Qed.

Lemma eo_range_assign_at l src : emits_only P (range_assign_at l src).
Proof. intros s. reflexivity. Qed.

Lemma eo_waitForLocalPort c port :
  (∀ n a d, P (DialTimeout n a d) = true) →
  emits_only P (waitForLocalPort c port).
Proof. intros H s. unfold trace; simpl. rewrite H. reflexivity. Qed.

Lemma eo_retry_loop fn n last :
  emits_only P fn → emits_only P (retry_loop fn n last).
Proof.
  intros Hfn. revert last. induction n as [|n IH]; intros last; simpl.
  - apply eo_ret.
  - apply eo_bind; [exact Hfn|]. intros [e|]; [apply IH|apply eo_ret].
Qed.

End emits_only.

(** Steps through a computation built from the combinators above. *)
Ltac eo_step :=
  match goal with
  | |- emits_only _ (mret _) => apply eo_ret
  | |- emits_only _ (panic _) => apply eo_panic
  | |- emits_only _ (emit _) => apply eo_emit; reflexivity
  | |- emits_only _ (with_maps _) => apply eo_with_maps
  | |- emits_only _ make_map => apply eo_make_map
  | |- emits_only _ (range_assign_at _ _) => apply eo_range_assign_at
  | |- emits_only _ (waitForLocalPort _ _) =>
      apply eo_waitForLocalPort; intros; reflexivity
  | |- emits_only _ (Retry _ _) => apply eo_retry_loop
  | |- emits_only _ (NixSourceBuild_fn _) => unfold NixSourceBuild_fn
  | |- emits_only _ (defer _ _) => apply eo_defer
  | |- emits_only _ (_ ≫= _) => apply eo_bind; intros
  | |- emits_only _ (match ?x with _ => _ end) => destruct x
  | |- emits_only _ (let '(_, _) := ?x in _) => destruct x
  end.

Ltac eo := repeat eo_step.

Lemma forallb_not_elem (P : Event → bool) (t : list Event) e :
  forallb P t = true → P e = false → e ∉ t.
Proof.
  intros H He Hin. apply list_elem_of_In in Hin.
  rewrite forallb_forall in H. specialize (H _ Hin). congruence.
Qed.

Lemma eo_weaken {A} (P Q : Event → bool) (m : M A) :
  (∀ e, P e = true → Q e = true) → emits_only P m → emits_only Q m.
Proof.
  intros HPQ Hm s. specialize (Hm s). rewrite forallb_forall in *.
  intros e He. apply HPQ, Hm, He.
Qed.

Lemma emits_only_run {A} (P : Event → bool) (m : M A) s r s1 t1 :
  emits_only P m → m s = (r, s1, t1) → forallb P t1 = true.
Proof. intros Hm H. specialize (Hm s). rewrite H in Hm. exact Hm. Qed.

Section emitted.

Context (c : Collab) (ctx : Context).

Lemma NixSourceBuild_emits wd : emits_only nix_event (NixSourceBuild c ctx wd).
Proof. unfold NixSourceBuild, NixSourceBuild_fn. eo. Qed.

Lemma determineImage_nix_emits cfg :
  flag_nix (flags ctx) = true → emits_only nix_event (determineImage c ctx cfg).
Proof.
  intros Hnix. unfold determineImage. rewrite Hnix.
  apply eo_bind; [eo|]. intros _.
  apply eo_bind; [apply NixSourceBuild_emits|]. intros. eo.
Qed.

Lemma determineImage_docker_emits cfg :
  flag_nix (flags ctx) = false →
  emits_only docker_event (determineImage c ctx cfg).
Proof.
  intros Hnix. unfold determineImage, mergeBuildArgs. rewrite Hnix. eo.
Qed.

Lemma determineImage_emits cfg :
  emits_only (λ e, nix_event e || docker_event e) (determineImage c ctx cfg).
Proof.
  destruct (flag_nix (flags ctx)) eqn:Hnix.
  - eapply eo_weaken; [|apply determineImage_nix_emits, Hnix].
    intros e ->. reflexivity.
  - eapply eo_weaken; [|apply determineImage_docker_emits, Hnix].
    intros e ->. apply orb_true_r.
Qed.

Lemma determineAppConfig_emits :
  emits_only config_event (determineAppConfig c ctx).
Proof. unfold determineAppConfig. eo. Qed.

Lemma createRelease_emits cfg img :
  emits_only release_event (createRelease c ctx cfg img).
Proof. unfold createRelease. eo. Qed.

End emitted.

(** ** The readiness poll *)
Section readiness.

Context (c : Collab).

Lemma NixSourceBuild_fn_run s :
  NixSourceBuild_fn c s
  = (Done (net_DialTimeout c (dials s)),
     {| maps := maps s; dials := S (dials s) |},
     attempts 1).
Proof. reflexivity. Qed.

(** Rewrites the dial index of the goal into the one of [H]. *)
Ltac same_dial H :=
  match type of H with
  | context [net_DialTimeout _ ?a] =>
      match goal with
      | |- context [net_DialTimeout _ ?b] => replace b with a by lia
      end
  end.

Lemma retry_loop_run n : ∀ last s,
  let r := retry_loop (NixSourceBuild_fn c) n last s in
  ∃ k, k ≤ n ∧
    trace r = attempts k ∧
    store r = {| maps := maps s; dials := dials s + k |} ∧
    (∀ i, i < k - 1 → net_DialTimeout c (dials s + i) ≠ None) ∧
    ((0 < k ∧ net_DialTimeout c (dials s + (k - 1)) = None ∧ result r = Done None)
     ∨ (k = n ∧
        (0 < n → net_DialTimeout c (dials s + (n - 1)) ≠ None) ∧
        result r = Done (RetriesExhausted <$>
                           match n with
                           | O => last
                           | S _ => net_DialTimeout c (dials s + (n - 1))
                           end))).
Proof.
  induction n as [|n IH]; intros last s; simpl.
  - exists 0. repeat split; try lia.
    + unfold store; simpl. destruct s; simpl. f_equal. lia.
    + right. repeat split; try lia.
  - unfold mbind, M_bind, bind. rewrite NixSourceBuild_fn_run.
    destruct (net_DialTimeout c (dials s)) as [e|] eqn:E.
    + specialize (IH (Some e) {| maps := maps s; dials := S (dials s) |}).
      simpl in IH. destruct IH as (k & Hk & Ht & Hs & Hbefore & Hend).
      destruct (retry_loop (NixSourceBuild_fn c) n (Some e) _) as [[r s2] t2].
      unfold trace, store, result in *; simpl in *.
      exists (S k). split; [lia|]. split; [rewrite Ht; reflexivity|].
      split; [rewrite Hs; f_equal; lia|].
      split.
      * intros i Hi. destruct i as [|i].
        -- same_dial E. rewrite E. discriminate.
        -- specialize (Hbefore i ltac:(lia)). same_dial Hbefore. exact Hbefore.
      * destruct Hend as [(Hpos & Hnone & Hr)|(-> & Hfail & Hr)].
        -- left. split; [lia|]. split; [|exact Hr].
           same_dial Hnone. exact Hnone.
        -- right. split; [reflexivity|]. split.
           ++ intros _. destruct n as [|n].
              ** same_dial E. rewrite E. discriminate.
              ** specialize (Hfail ltac:(lia)). same_dial Hfail. exact Hfail.
           ++ rewrite Hr. f_equal. f_equal. destruct n as [|n].
              ** same_dial E. rewrite E. reflexivity.
              ** f_equal. lia.
    + exists 1. simpl. unfold trace, store, result; simpl.
      split; [lia|]. split; [reflexivity|].
      split; [f_equal; lia|]. split; [intros i Hi; lia|].
      left. split; [lia|]. split; [|reflexivity].
      same_dial E. exact E.
Qed.

End readiness.

(** C6: the Port Readiness Prober, [Retry] on the closure [fn] with a bound
    of 10, makes [k] connect attempts for some [k] between 1 and 10.  Each
    attempt is a wait of one second followed by one dial of the local port
    with a timeout of one second ([attempts k]).  Every attempt before the
    [k]-th failed.  Either the [k]-th dial succeeds and the prober returns
    success there, making no further attempt; or [k] is 10, all ten dials
    failed, and the prober returns an error that wraps the error of the
    tenth dial. *)
Theorem port_readiness_prober (c : Collab) (s : Store) :
  let r := Retry (NixSourceBuild_fn c) 10 s in
  let outcome i := net_DialTimeout c (dials s + i) in
  ∃ k, 1 ≤ k ≤ 10 ∧
    trace r = attempts k ∧
    (∀ i, i < k - 1 → outcome i ≠ None) ∧
    ((outcome (k - 1) = None ∧ result r = Done None)
     ∨ (k = 10 ∧ ∃ last e, outcome 9 = Some last ∧
                           result r = Done (Some e) ∧ wraps e last)).
Proof.
  intros r outcome. subst r outcome. unfold Retry.
  destruct (retry_loop_run c 10 None s) as (k & Hk & Ht & _ & Hbefore & Hend).
  exists k. simpl in Hend.
  destruct Hend as [(Hpos & Hnone & Hr)|(-> & Hfail & Hr)].
  - split; [lia|]. split; [exact Ht|]. split; [exact Hbefore|].
    left. split; assumption.
  - split; [lia|]. split; [exact Ht|]. split; [exact Hbefore|].
    right. split; [reflexivity|].
    specialize (Hfail ltac:(lia)).
    destruct (net_DialTimeout c (dials s + 9)) as [last|] eqn:E; [|congruence].
    exists last, (RetriesExhausted last). split; [reflexivity|].
    split; [exact Hr|]. apply wraps_step, wraps_here.
Qed.

Lemma NixSourceBuild_fn_with_exec_Run c r :
  NixSourceBuild_fn (with_exec_Run c r) = NixSourceBuild_fn c.
Proof. reflexivity. Qed.

Lemma attempts_forallb (P : Event → bool) k :
  P (Sleep Second) = true →
  P (DialTimeout "tcp" "localhost:8873" Second) = true →
  forallb P (attempts k) = true.
Proof.
  intros Hs Hd. induction k as [|k IH]; simpl; [reflexivity|].
  rewrite Hs, Hd. exact IH.
Qed.

Lemma attempts_elem e k :
  e ∈ attempts k → e = Sleep Second ∨ e = DialTimeout "tcp" "localhost:8873" Second.
Proof.
  induction k as [|k IH]; simpl; intros H.
  - apply elem_of_nil in H. destruct H.
  - apply elem_of_cons in H as [H|H]; [left; exact H|].
    apply elem_of_cons in H as [H|H]; [right; exact H|]. apply IH, H.
Qed.

(** Splits a membership in a trace made of explicit events, appends and
    readiness rounds; impossible cases are closed. *)
Ltac elems H :=
  lazymatch type of H with
  | _ ∈ [] => apply elem_of_nil in H; destruct H
  | _ ∈ _ :: _ =>
      apply elem_of_cons in H as [H|H]; [try discriminate H | elems H]
  | _ ∈ _ ++ _ => apply elem_of_app in H as [H|H]; [elems H | elems H]
  | _ ∈ attempts _ => apply attempts_elem in H as [H|H]; try discriminate H
  | _ => idtac
  end.

Ltac run_monad :=
  unfold defer, mbind, M_bind, bind, emit, mret, M_ret, ret, panic, with_maps,
    trace, result, store in *; simpl in *.

(** C4: in the Remote Sync & Build Executor a failure of the external
    synchronization process is reported but does not abort the run.  Take
    any collaborators and compare the run in which rsync fails with error
    [e] to the run in which it succeeds, everything else being equal: both
    return the same result in the same store; and when the sync step is
    reached, the failing run prints [code rsync failed: e] and then goes on
    exactly as the succeeding one, constructing and executing the same
    remote build command. *)
Theorem sync_failure_is_not_fatal (c : Collab) (ctx : Context) (wd : string)
        (s : Store) (e : error) name args :
  let ok := NixSourceBuild (with_exec_Run c (λ _ _, None)) ctx wd s in
  let failed := NixSourceBuild (with_exec_Run c (λ _ _, Some e)) ctx wd s in
  (result failed = result ok ∧ store failed = store ok)
  ∧ (ExecRun name args ∈ trace failed →
     ∃ pre post a d addr command,
       trace failed
       = pre ++ [ExecRun name args;
                 Println (Error (wrapError "code rsync failed: " e));
                 Println "Running Nix build...";
                 CallRunSSHCommand a d addr command] ++ post ∧
       trace ok
       = pre ++ [ExecRun name args;
                 Println "Running Nix build...";
                 CallRunSSHCommand a d addr command] ++ post).
Proof.
  intros ok failed. subst ok failed. unfold NixSourceBuild.
  rewrite !NixSourceBuild_fn_with_exec_Run.
  destruct (retry_loop_run c 10 None s) as (k & _ & Ht & _ & _ & _).
  change (Retry (NixSourceBuild_fn c) 10)
    with (retry_loop (NixSourceBuild_fn c) 10 None).
  revert Ht. generalize (retry_loop (NixSourceBuild_fn c) 10 None). intros poll Ht.
  cbn [RemoteBuilderMachine Establish ConnectToTunnel IpAddress NewDeploymentTag
       GetAPIToken RunSSHCommand exec_Run with_exec_Run].
  destruct (RemoteBuilderMachine c _) as [[m a] [err|]];
    [run_monad; split; [split; reflexivity|intros H; elems H]|].
  destruct (Establish c) as [err|ac];
    [run_monad; split; [split; reflexivity|intros H; elems H]|].
  destruct a as [a|]; [|run_monad; split; [split; reflexivity|intros H; elems H]].
  destruct (ConnectToTunnel c ac _) as [err|d];
    [run_monad; split; [split; reflexivity|intros H; elems H]|].
  run_monad. destruct (poll s) as [[[[e0|]|msg] s1] t1]; simpl in *; subst t1.
  - split; [split; reflexivity|intros H; elems H].
  - destruct (RunSSHCommand c a d _ _) as [err|resp]; simpl;
      (split; [split; reflexivity|]);
      intros H; elems H; inversion H; subst name args;
      exists ([CallRemoteBuilderMachine (NameFromContext ctx); CallEstablish;
               CallConnectToTunnel (api.Slug (api.Organization_ a));
               GoProxyConnect
                 {| proxy.Ports := ["8873"; "873"]; proxy.App := a;
                    proxy.Dialer := d; proxy.RemoteHost := IpAddress c m |}]
              ++ attempts k
              ++ [FprintfOut
                    ("Proxy connected. Syncing source code to the remote builder "
                     +:+ api.Name a +:+ nl)]);
      eexists _, _, _, _, _; split; simpl; rewrite <- ?app_assoc; simpl;
      reflexivity.
  - split; [split; reflexivity|intros H; elems H].
Qed.

(** X11: when the tunnel is up but none of the ten dials succeeds, the
    remote build fails with an error that wraps the error of the last dial,
    and neither the sync process nor the remote command is run. *)
Lemma NixSourceBuild_tunnel_not_ready (c : Collab) (ctx : Context) (wd : string)
      (s : Store) m a ac d :
  RemoteBuilderMachine c (NameFromContext ctx) = (m, Some a, None) →
  Establish c = inr ac →
  ConnectToTunnel c ac (api.Slug (api.Organization_ a)) = inr d →
  (∀ i, i < 10 → net_DialTimeout c (dials s + i) ≠ None) →
  ∃ e last,
    net_DialTimeout c (dials s + 9) = Some last ∧
    result (NixSourceBuild c ctx wd s) = Done (None, Some e) ∧
    wraps e last ∧
    (∀ name args, ExecRun name args ∉ trace (NixSourceBuild c ctx wd s)) ∧
    (∀ b n addr cmd, CallRunSSHCommand b n addr cmd ∉ trace (NixSourceBuild c ctx wd s)).
Proof.
  intros Hm Hac Hd Hfail. unfold NixSourceBuild.
  rewrite Hm. cbv beta iota. rewrite Hac. cbv beta iota. rewrite Hd.
  destruct (retry_loop_run c 10 None s) as (k & Hk & Ht & _ & _ & Hend).
  change (Retry (NixSourceBuild_fn c) 10)
    with (retry_loop (NixSourceBuild_fn c) 10 None).
  revert Ht Hend. generalize (retry_loop (NixSourceBuild_fn c) 10 None).
  intros poll Ht Hend.
  destruct Hend as [(Hpos & Hnone & _)|(-> & _ & Hr)].
  { exfalso. apply (Hfail (k - 1)); [lia|exact Hnone]. }
  destruct (net_DialTimeout c (dials s + 9)) as [last|] eqn:E;
    [|exfalso; apply (Hfail 9); [lia|exact E]].
  exists (wrapError "rsync proxy failed to connect after 10 seconds: "
            (RetriesExhausted last)), last.
  split; [reflexivity|].
  simpl in Hr. replace (dials s + 9) with (dials s + (10 - 1)) in E by lia.
  simpl in E. rewrite E in Hr. simpl in Hr.
  run_monad. destruct (poll s) as [[r s1] t1]. simpl in *. subst r t1.
  split; [reflexivity|]. split; [apply wraps_step, wraps_step, wraps_here|].
  split; [intros name args H|intros b n addr cmd H]; simpl in H; elems H.
Qed.

(** ** Tearing down the tunnel proxy *)

Lemma NixSourceBuild_cancels_proxy (c : Collab) (ctx : Context) (wd : string)
      (s : Store) (p : proxy.ConnectParams) :
  let t := trace (NixSourceBuild c ctx wd s) in
  GoProxyConnect p ∈ t →
  ∃ pre, t = pre ++ [CancelProxy] ∧ GoProxyConnect p ∈ pre ∧ CancelProxy ∉ pre.
Proof.
  intros t. subst t. unfold NixSourceBuild.
  destruct (RemoteBuilderMachine c _) as [[m a] [err|]];
    [run_monad; intros H; elems H|].
  destruct (Establish c) as [err|ac]; [run_monad; intros H; elems H|].
  destruct a as [a|]; [|run_monad; intros H; elems H].
  destruct (ConnectToTunnel c ac _) as [err|d]; [run_monad; intros H; elems H|].
  rewrite !trace_emit_bind, trace_defer.
  change (trace (emit CancelProxy _)) with [CancelProxy].
  match goal with
  | |- context [trace (?b s)] =>
      assert (Hb : emits_only (λ e, negb (is_CancelProxy e)) b) by eo;
      specialize (Hb s); revert Hb; generalize (trace (b s))
  end.
  intros tb Hb H.
  exists (CallRemoteBuilderMachine (NameFromContext ctx) :: CallEstablish
          :: CallConnectToTunnel (api.Slug (api.Organization_ a)) :: tb).
  split; [reflexivity|]. split.
  - elems H. do 3 apply list_elem_of_further. exact H.
  - intros Hc. elems Hc. revert Hc. apply (forallb_not_elem _ _ _ Hb). reflexivity.
Qed.

(** C5: whenever the image-acquisition stage starts the background proxy
    task, the proxy's cancellation handle is invoked exactly once, and it is
    the last thing the stage does before it returns: the trace of
    [determineImage] is [pre ++ [CancelProxy]], the start of the proxy is in
    [pre] and no cancellation is.  The collaborators are arbitrary, so this
    covers every exit path: success, readiness exhaustion, sync failure and
    remote build failure. *)
Theorem proxy_cancelled_exactly_once (c : Collab) (ctx : Context)
        (cfg : option app.Config) (s : Store) (p : proxy.ConnectParams) :
  let t := trace (determineImage c ctx cfg s) in
  GoProxyConnect p ∈ t →
  ∃ pre, t = pre ++ [CancelProxy] ∧ GoProxyConnect p ∈ pre ∧ CancelProxy ∉ pre.
Proof.
  intros t. subst t. destruct (flag_nix (flags ctx)) eqn:Hnix.
  - unfold determineImage. rewrite Hnix, trace_emit_bind, trace_bind.
    intros H.
    assert (Hp : GoProxyConnect p ∈ trace (NixSourceBuild c ctx (WorkingDirectory ctx) s)).
    { destruct (result (NixSourceBuild c ctx (WorkingDirectory ctx) s)) as [[img [e|]]|msg];
        run_monad; elems H; try exact H. }
    destruct (NixSourceBuild_cancels_proxy c ctx _ s p Hp) as (pre & Ht & Hin & Hout).
    exists (NewTextBlock (Some "Building image") :: pre).
    split; [|split].
    + simpl in Ht. rewrite Ht.
      destruct (result (NixSourceBuild c ctx (WorkingDirectory ctx) s)) as [[img [e|]]|msg];
        unfold trace; simpl; rewrite ?app_nil_r; reflexivity.
    + apply list_elem_of_further, Hin.
    + intros Hc. elems Hc. contradiction.
  - intros H. exfalso. revert H.
    apply (forallb_not_elem docker_event); [|reflexivity].
    apply determineImage_docker_emits, Hnix.
Qed.

(** ** Build arguments *)

Lemma range_assign_union (src dst : gmap string string) :
  range_assign src dst = src ∪ dst.
Proof.
  unfold range_assign.
  apply (map_fold_weak_ind (λ r m, r = m ∪ dst)).
  - symmetry. apply (left_id_L ∅ (∪)).
  - intros k v m r _ ->. apply insert_union_l.
Qed.

Lemma range_assign_lookup (src dst : gmap string string) k :
  range_assign src dst !! k
  = match src !! k with Some v => Some v | None => dst !! k end.
Proof.
  rewrite range_assign_union, lookup_union.
  destruct (src !! k), (dst !! k); reflexivity.
Qed.

(** C9: when the command-line build arguments parse to [cli],
    [mergeBuildArgs] returns a map that is the key-union of the
    configuration's arguments and [cli], in which the command-line value
    wins on every key the two have in common: its keys are those of either
    map, a key of [cli] has the value [cli] gives it, and any other key has
    the configuration's value. *)
Theorem mergeBuildArgs_union (c : Collab) (ctx : Context) (args : option loc)
        (s : Store) (cli : gmap string string) :
  ParseKVStringsToMap c (flag_build_arg (flags ctx)) = inr cli →
  let config_args :=
    match args with Some l => default ∅ (maps s !! l) | None => ∅ end in
  let r := mergeBuildArgs c ctx args s in
  ∃ l merged,
    result r = Done (Some l, None) ∧
    maps (store r) !! l = Some merged ∧
    merged = cli ∪ config_args ∧
    dom merged = dom config_args ∪ dom cli ∧
    ∀ k, merged !! k
         = match cli !! k with Some v => Some v | None => config_args !! k end.
Proof.
  intros Hcli config_args r. subst config_args r.
  unfold mergeBuildArgs. rewrite Hcli.
  destruct args as [l|]; run_monad.
  - exists l, (range_assign cli (default ∅ (maps s !! l))).
    split; [reflexivity|]. split; [apply lookup_insert_eq|].
    split; [apply range_assign_union|]. split.
    + rewrite range_assign_union, dom_union_L. apply (comm_L (∪)).
    + apply range_assign_lookup.
  - exists (fresh (dom (maps s))), (range_assign cli ∅).
    split; [reflexivity|]. rewrite !lookup_insert_eq. simpl.
    split; [reflexivity|].
    split; [apply range_assign_union|]. split.
    + rewrite range_assign_union, dom_union_L. apply (comm_L (∪)).
    + apply range_assign_lookup.
Qed.

Lemma mergeBuildArgs_union_witness :
  ∃ l, result (mergeBuildArgs (sample.collab "" "" {[ "B" := "3"; "C" := "4" ]})
                 (sample.ctx_of sample.flags0) (Some 0) sample.store0)
       = Done (Some l, None) ∧
       maps (store (mergeBuildArgs (sample.collab "" "" {[ "B" := "3"; "C" := "4" ]})
                      (sample.ctx_of sample.flags0) (Some 0) sample.store0)) !! l
       = Some {[ "A" := "1"; "B" := "3"; "C" := "4" ]}.
Proof.
  destruct (mergeBuildArgs_union
              (sample.collab "" "" {[ "B" := "3"; "C" := "4" ]})
              (sample.ctx_of sample.flags0) (Some 0) sample.store0
              {[ "B" := "3"; "C" := "4" ]} eq_refl)
    as (l & merged & Hr & Hm & Hu & _).
  exists l. split; [exact Hr|]. rewrite Hm, Hu. f_equal.
Defined.

Lemma nonempty_false s : nonempty s = false → s = "".
Proof.
  unfold nonempty. intros H. apply negb_false_iff in H.
  apply String.eqb_eq, H.
Qed.

Lemma nonempty_true s : nonempty s = true ↔ s ≠ "".
Proof.
  unfold nonempty. rewrite negb_true_iff. apply String.eqb_neq.
Qed.

Lemma fetchImageRef_no_error ctx cfg : (fetchImageRef ctx cfg).2 = None.
Proof.
  unfold fetchImageRef.
  destruct (nonempty (flag_image (flags ctx))); [reflexivity|].
  destruct cfg as [cfg|]; [|reflexivity].
  destruct (app.Build_ cfg) as [b|]; [|reflexivity].
  destruct (nonempty (app.Image b)); reflexivity.
Qed.

(** C10: when the configuration's build-args map is non-nil (the map
    object at address [l], holding [m0]), [mergeBuildArgs] returns that same
    address and writes the command-line arguments into that object; after
    image acquisition on the source-build path the configuration's own map
    holds the merged arguments, and the options handed to the Docker
    resolver refer to the same object. *)
Theorem config_build_args_mutated (c : Collab) (ctx : Context)
        (cfg : app.Config) (b : app.Build) (l : loc)
        (m0 cli : gmap string string) (s : Store) :
  flag_nix (flags ctx) = false →
  (fetchImageRef ctx (Some cfg)).1 = "" →
  app.Build_ cfg = Some b →
  app.Args b = Some l →
  maps s !! l = Some m0 →
  ParseKVStringsToMap c (flag_build_arg (flags ctx)) = inr cli →
  let merge := mergeBuildArgs c ctx (app.Args b) s in
  let r := determineImage c ctx (Some cfg) s in
  result merge = Done (Some l, None) ∧
  maps (store merge) !! l = Some (cli ∪ m0) ∧
  maps (store r) !! l = Some (cli ∪ m0) ∧
  (∀ rs opts, CallBuildImage rs opts ∈ trace r → imgsrc.BuildArgs opts = Some l) ∧
  (∀ k v, cli !! k = Some v → (cli ∪ m0) !! k = Some v).
Proof.
  intros Hnix Href Hb Hargs Hm0 Hcli merge r. subst merge r.
  rewrite <- (range_assign_union cli m0).
  split; [|split; [|split; [|split]]].
  - unfold mergeBuildArgs. rewrite Hargs, Hcli. reflexivity.
  - unfold mergeBuildArgs. rewrite Hargs, Hcli. run_monad.
    rewrite Hm0. apply lookup_insert_eq.
  - unfold determineImage. rewrite Hnix.
    pose proof (fetchImageRef_no_error ctx (Some cfg)) as Herr.
    destruct (fetchImageRef ctx (Some cfg)) as [ref err]. simpl in Href, Herr.
    subst ref err. rewrite Hb. unfold mergeBuildArgs. rewrite Hargs, Hcli.
    run_monad. rewrite Hm0.
    destruct (resolveDockerfilePath c ctx cfg) as [path [e|]]; simpl;
      [apply lookup_insert_eq|].
    match goal with
    | |- context [BuildImage c ?a ?b ?m] =>
        destruct (BuildImage c a b m) as [[img|] [e|]]
    end; simpl; apply lookup_insert_eq.
  - unfold determineImage. rewrite Hnix.
    pose proof (fetchImageRef_no_error ctx (Some cfg)) as Herr.
    destruct (fetchImageRef ctx (Some cfg)) as [ref err]. simpl in Href, Herr.
    subst ref err. rewrite Hb. unfold mergeBuildArgs. rewrite Hargs, Hcli.
    run_monad. rewrite Hm0.
    destruct (resolveDockerfilePath c ctx cfg) as [path [e|]]; simpl;
      [intros rs opts H; elems H|].
    match goal with
    | |- context [BuildImage c ?a ?b ?m] =>
        destruct (BuildImage c a b m) as [[img|] [e|]]
    end; simpl; intros rs opts H; elems H; inversion H; reflexivity.
  - intros k v Hk. rewrite range_assign_lookup, Hk. reflexivity.
Qed.

(** What the code does with the two build targets: on the source-build
    path the target placed into the image options handed to the Docker
    resolver is the configuration-declared target whenever that one is
    non-empty; the command-line build-target flag is read only when the
    configuration declares no target. *)
Theorem build_target_config_first (c : Collab) (ctx : Context)
        (cfg : app.Config) (s : Store) r opts :
  CallBuildImage r opts ∈ trace (determineImage c ctx (Some cfg) s) →
  imgsrc.Target opts
  = if nonempty (DockerBuildTarget c cfg) then DockerBuildTarget c cfg
    else flag_build_target (flags ctx).
Proof.
  destruct (flag_nix (flags ctx)) eqn:Hnix.
  { intros H. exfalso. revert H.
    apply (forallb_not_elem nix_event); [|reflexivity].
    apply determineImage_nix_emits, Hnix. }
  unfold determineImage. rewrite Hnix.
  destruct (fetchImageRef ctx (Some cfg)) as [ref [e|]];
    [run_monad; intros H; elems H|].
  destruct (nonempty ref); [run_monad; intros H; elems H|].
  unfold mergeBuildArgs.
  destruct (ParseKVStringsToMap c _) as [e|cli];
    [destruct (app.Args _); run_monad; intros H; elems H|].
  destruct (resolveDockerfilePath c ctx cfg) as [path [e|]];
    [destruct (app.Args _); run_monad; intros H; elems H|].
  assert (Ht : (if nonempty (DockerBuildTarget c cfg) then DockerBuildTarget c cfg
                else if nonempty (flag_build_target (flags ctx))
                     then flag_build_target (flags ctx) else "")
               = if nonempty (DockerBuildTarget c cfg) then DockerBuildTarget c cfg
                 else flag_build_target (flags ctx)).
  { destruct (nonempty (DockerBuildTarget c cfg)); [reflexivity|].
    destruct (nonempty (flag_build_target (flags ctx))) eqn:E; [reflexivity|].
    symmetry. apply nonempty_false, E. }
  rewrite <- Ht. clear Ht.
  destruct (app.Args _); run_monad;
    match goal with
    | |- context [BuildImage c ?a ?b ?m] =>
        destruct (BuildImage c a b m) as [[img|] [e|]]
    end; simpl; intros H; elems H; inversion H; reflexivity.
Qed.

(** ** The build target *)

Ltac find_elem :=
  first [ apply list_elem_of_here | apply list_elem_of_further; find_elem ].

(** A run with both targets given: configuration [cfgstage], flag
    [flagstage]. *)
Lemma both_targets_build_call :
  ∃ r opts,
    CallBuildImage r opts
    ∈ trace (determineImage (sample.collab "" "cfgstage" ∅)
               (sample.ctx_of (sample.flags_with false false false "" "" "flagstage"))
               (Some sample.config0) sample.store0).
Proof. eexists _, _. vm_compute. find_elem. Qed.

Lemma build_target_config_first_witness :
  ∃ r opts,
    CallBuildImage r opts
    ∈ trace (determineImage (sample.collab "" "cfgstage" ∅)
               (sample.ctx_of (sample.flags_with false false false "" "" "flagstage"))
               (Some sample.config0) sample.store0) ∧
    imgsrc.Target opts = "cfgstage".
Proof.
  destruct both_targets_build_call as (r & opts & Hin).
  exists r, opts. split; [exact Hin|].
  exact (build_target_config_first
           (sample.collab "" "cfgstage" ∅)
           (sample.ctx_of (sample.flags_with false false false "" "" "flagstage"))
           sample.config0 sample.store0 r opts Hin).
Defined.

(** C1 at its failing input: configuration target [cfgstage] and
    command-line flag [flagstage].  The claim (the command-line flag
    overrides the configuration-declared target, whenever the flag is
    non-empty) does not hold of the code there: the Docker resolver is
    handed [cfgstage]. *)
Lemma build_target_flag_wins_fails :
  ¬ build_target_flag_wins
      (sample.collab "" "cfgstage" ∅)
      (sample.ctx_of (sample.flags_with false false false "" "" "flagstage"))
      sample.config0 sample.store0.
Proof.
  intros H.
  destruct both_targets_build_call as (r & opts & Hin).
  pose proof (H eq_refl r opts Hin) as Hflag.
  revert Hin Hflag. vm_compute. intros Hin Hflag.
  repeat (apply elem_of_cons in Hin as [Hin|Hin];
          [try discriminate Hin; inversion Hin; subst opts; discriminate Hflag|]).
  apply elem_of_nil in Hin. exact Hin.
Qed.

(** ** The Dockerfile path *)

Lemma Clean_nonempty path : nonempty (filepath.Clean path) = true.
Proof.
  unfold filepath.Clean.
  destruct (filepath.IsAbs path); [reflexivity|].
  destruct (String.eqb _ "") eqn:E; [reflexivity|].
  unfold nonempty. rewrite E. reflexivity.
Qed.

Lemma Join_nonempty a b : nonempty a = true → nonempty (filepath.Join a b) = true.
Proof. intros Ha. unfold filepath.Join. rewrite Ha. apply Clean_nonempty. Qed.

Lemma Dir_nonempty path : nonempty (filepath.Dir path) = true.
Proof. apply Clean_nonempty. Qed.

(** What the code does with the two Dockerfile paths: when the
    configuration declares one, the result is that path resolved relative
    to the configuration file's directory and made absolute, whatever the
    command-line flag; the command-line path is read, and made absolute,
    only when the configuration declares none; with declared path
    [docker/Dockerfile] and configuration file [/proj/fly.toml] the result
    is [/proj/docker/Dockerfile], for every value of the flag. *)
Theorem dockerfile_config_first (c : Collab) (ctx : Context) (cfg : app.Config) :
  (nonempty (Dockerfile c cfg) = true →
   resolveDockerfilePath c ctx cfg
   = filepath.Abs (Getwd c)
       (filepath.Join (filepath.Dir (app.Path cfg)) (Dockerfile c cfg)))
  ∧ (nonempty (Dockerfile c cfg) = false →
     resolveDockerfilePath c ctx cfg
     = if nonempty (flag_dockerfile (flags ctx))
       then filepath.Abs (Getwd c) (flag_dockerfile (flags ctx))
       else ("", None))
  ∧ (Dockerfile c cfg = "docker/Dockerfile" →
     app.Path cfg = "/proj/fly.toml" →
     resolveDockerfilePath c ctx cfg = ("/proj/docker/Dockerfile", None)).
Proof.
  unfold resolveDockerfilePath. split; [|split].
  - intros Hd. rewrite Hd.
    rewrite (Join_nonempty _ _ (Dir_nonempty _)). reflexivity.
  - intros Hd. rewrite Hd.
    destruct (nonempty (flag_dockerfile (flags ctx))) eqn:E; [reflexivity|].
    rewrite (nonempty_false _ E). reflexivity.
  - intros -> ->. reflexivity.
Qed.

Lemma dockerfile_config_first_witness :
  resolveDockerfilePath (sample.collab "docker/Dockerfile" "" ∅)
    (sample.ctx_of (sample.flags_with false false false "" "/other/Dockerfile" ""))
    sample.config0
  = ("/proj/docker/Dockerfile", None)
  ∧ resolveDockerfilePath (sample.collab "" "" ∅)
      (sample.ctx_of (sample.flags_with false false false "" "sub/Dockerfile" ""))
      sample.config0
    = ("/proj/sub/Dockerfile", None).
Proof.
  split.
  - exact (proj2 (proj2 (dockerfile_config_first
                           (sample.collab "docker/Dockerfile" "" ∅)
                           (sample.ctx_of (sample.flags_with false false false ""
                                             "/other/Dockerfile" ""))
                           sample.config0)) eq_refl eq_refl).
  - exact (proj1 (proj2 (dockerfile_config_first
                           (sample.collab "" "" ∅)
                           (sample.ctx_of (sample.flags_with false false false ""
                                             "sub/Dockerfile" ""))
                           sample.config0)) eq_refl).
Defined.

(** C2 at its failing input: declared path [docker/Dockerfile],
    configuration file [/proj/fly.toml] and command-line flag
    [/other/Dockerfile].  The claim (a command-line Dockerfile path, when
    given, is used instead of any configuration-declared path) does not
    hold of the code there: the result is [/proj/docker/Dockerfile]. *)
Lemma dockerfile_flag_wins_fails :
  ¬ dockerfile_flag_wins
      (sample.collab "docker/Dockerfile" "" ∅)
      (sample.ctx_of (sample.flags_with false false false "" "/other/Dockerfile" ""))
      sample.config0.
Proof.
  intros H. specialize (H eq_refl). vm_compute in H. discriminate H.
Qed.

(** ** An image or an error *)

(** The remote build returns an image exactly when it returns no error. *)
Lemma NixSourceBuild_image_or_error (c : Collab) (ctx : Context) wd s img err :
  result (NixSourceBuild c ctx wd s) = Done (img, err) →
  (img = None ∧ err ≠ None) ∨ (img ≠ None ∧ err = None).
Proof.
  unfold NixSourceBuild. generalize (Retry (NixSourceBuild_fn c) 10). intros poll.
  destruct (RemoteBuilderMachine c _) as [[m a] [e|]];
    [run_monad; intros [= <- <-]; left; split; congruence|].
  destruct (Establish c) as [e|ac];
    [run_monad; intros [= <- <-]; left; split; congruence|].
  destruct a as [a|]; [|run_monad; intros [= <- <-]; left; split; congruence].
  destruct (ConnectToTunnel c ac _) as [e|d];
    [run_monad; intros [= <- <-]; left; split; congruence|].
  run_monad. destruct (poll s) as [[[[e0|]|msg] s1] t1]; simpl.
  - intros [= <- <-]; left; split; congruence.
  - destruct (exec_Run c _ _) as [ex|];
      destruct (RunSSHCommand c a d _ _) as [es|resp];
      simpl; intros [= <- <-]; (left + right); split; congruence.
  - discriminate.
Qed.

Lemma nix_path_image_or_error (c : Collab) (ctx : Context) cfg s :
  flag_nix (flags ctx) = true → image_or_error c ctx cfg s.
Proof.
  intros Hnix. unfold image_or_error, determineImage. rewrite Hnix.
  pose proof (NixSourceBuild_image_or_error c ctx (WorkingDirectory ctx) s) as H.
  run_monad.
  destruct (NixSourceBuild c ctx (WorkingDirectory ctx) s) as [[[[img [e|]]|msg] s1] t1];
    simpl in *; try discriminate.
  destruct (H img None eq_refl) as [[_ Hne]|[Hne _]]; congruence.
Qed.

(** The Docker build path has the guard: a nil image with a nil error
    becomes the error [no image specified]. *)
Lemma build_path_image_or_error (c : Collab) (ctx : Context) cfg s :
  flag_nix (flags ctx) = false →
  (fetchImageRef ctx cfg).1 = "" →
  image_or_error c ctx cfg s.
Proof.
  intros Hnix Href. unfold image_or_error, determineImage. rewrite Hnix.
  pose proof (fetchImageRef_no_error ctx cfg) as Herr.
  destruct (fetchImageRef ctx cfg) as [ref err]. simpl in Href, Herr. subst ref err.
  destruct cfg as [cfg|]; [|run_monad; discriminate].
  unfold mergeBuildArgs.
  destruct (ParseKVStringsToMap c _) as [e|cli];
    [destruct (app.Args _); run_monad; discriminate|].
  destruct (resolveDockerfilePath c ctx cfg) as [path [e|]];
    [destruct (app.Args _); run_monad; discriminate|].
  destruct (app.Args _); run_monad;
    match goal with
    | |- context [BuildImage c ?a ?b ?m] =>
        destruct (BuildImage c a b m) as [[img|] [e|]]
    end; simpl; discriminate.
Qed.

(** C3 at its failing input: an explicit image reference and a reference
    resolver that returns neither an image nor an error.  [determineImage]
    hands the pair back unchecked, so the resolver returns with both the
    image and the error absent, and [run] goes on to dereference the nil
    image in [createRelease]. *)
Lemma reference_path_returns_nothing :
  let c := sample.with_silent_ResolveReference (sample.collab "" "" ∅) in
  let ctx := sample.ctx_of (sample.flags_with false false false "nginx:latest" "" "") in
  result (determineImage c ctx (Some sample.config0) sample.store0) = Done (None, None)
  ∧ ¬ image_or_error c ctx (Some sample.config0) sample.store0
  ∧ result (run c ctx sample.store0) = Panic nil_dereference.
Proof.
  split; [reflexivity|]. split; [|reflexivity].
  intros H. apply H. reflexivity.
Qed.

(** ** The release lifecycle *)

Lemma forallb_elem (P : Event → bool) (t : list Event) e :
  forallb P t = true → e ∈ t → P e = true.
Proof.
  intros H Hin. apply list_elem_of_In in Hin.
  rewrite forallb_forall in H. apply H, Hin.
Qed.

Section lifecycle.

Context (c : Collab) (ctx : Context).

(** What [run] does once the configuration and the image are there. *)
Lemma run_after_image s cfg s1 t1 img s2 t2 :
  determineAppConfig c ctx s = (Done (cfg, None), s1, t1) →
  determineImage c ctx cfg s1 = (Done (img, None), s2, t2) →
  flag_build_only (flags ctx) = true →
  run c ctx s = (Done None, s2, t1 ++ t2).
Proof.
  intros Hcfg Himg Hbo. unfold run.
  rewrite (bind_run _ _ _ _ _ _ Hcfg). cbv beta iota zeta.
  rewrite (bind_run _ _ _ _ _ _ Himg). cbv beta iota zeta.
  rewrite Hbo. simpl. rewrite !app_nil_r. reflexivity.
Qed.

Lemma run_after_release s cfg s1 t1 img s2 t2 release releaseCommand s3 t3 :
  determineAppConfig c ctx s = (Done (cfg, None), s1, t1) →
  determineImage c ctx cfg s1 = (Done (img, None), s2, t2) →
  flag_build_only (flags ctx) = false →
  createRelease c ctx cfg img s2 = (Done (release, releaseCommand, None), s3, t3) →
  flag_detach (flags ctx) = true →
  run c ctx s = (Done None, s3, t1 ++ t2 ++ t3).
Proof.
  intros Hcfg Himg Hbo Hrel Hdetach. unfold run.
  rewrite (bind_run _ _ _ _ _ _ Hcfg). cbv beta iota zeta.
  rewrite (bind_run _ _ _ _ _ _ Himg). cbv beta iota zeta.
  rewrite Hbo.
  rewrite (bind_run _ _ _ _ _ _ Hrel). cbv beta iota zeta.
  rewrite Hdetach. simpl. rewrite !app_nil_r. reflexivity.
Qed.

Lemma createRelease_submits cfg img s2 release releaseCommand s3 t3 :
  createRelease c ctx cfg img s2 = (Done (release, releaseCommand, None), s3, t3) →
  ∃ input r, CallDeployImage input ∈ t3 ∧ release = Some r ∧ s3 = s2.
Proof.
  unfold createRelease. destruct img as [img|]; [|run_monad; discriminate].
  destruct cfg as [cfg|]; [|run_monad; discriminate].
  run_monad.
  destruct (DeployImage c _) as [[rel rc] [e|]]; simpl; [discriminate|].
  destruct rel as [r|]; simpl; [|discriminate].
  intros [= <- <- <- <-]. eexists _, r. split; [find_elem|]. split; reflexivity.
Qed.

(** C7: take a run in which the configuration was determined and image
    acquisition returned without error.  If the build-only selector is
    set, [run] returns nil in the very state and trace in which image
    acquisition ended, and no release is submitted.  If the detach selector
    is set (and build-only is not) and release submission succeeds, [run]
    returns nil in the state and trace in which [createRelease] ended: the
    release was submitted, and there is no release-command watch, no
    re-fetch of the release and no deployment watch. *)
Theorem run_short_circuits s cfg s1 t1 img s2 t2 :
  determineAppConfig c ctx s = (Done (cfg, None), s1, t1) →
  determineImage c ctx cfg s1 = (Done (img, None), s2, t2) →
  (flag_build_only (flags ctx) = true →
   run c ctx s = (Done None, s2, t1 ++ t2) ∧
   ∀ e, e ∈ trace (run c ctx s) → is_CallDeployImage e = false ∧ is_wait e = false)
  ∧ (flag_build_only (flags ctx) = false →
     flag_detach (flags ctx) = true →
     ∀ release releaseCommand s3 t3,
       createRelease c ctx cfg img s2
       = (Done (release, releaseCommand, None), s3, t3) →
       run c ctx s = (Done None, s3, t1 ++ t2 ++ t3) ∧
       (∃ input, CallDeployImage input ∈ trace (run c ctx s)) ∧
       ∀ e, e ∈ trace (run c ctx s) → is_wait e = false).
Proof.
  intros Hcfg Himg.
  pose proof (emits_only_run _ _ _ _ _ _ (determineAppConfig_emits c ctx) Hcfg) as E1.
  pose proof (emits_only_run _ _ _ _ _ _ (determineImage_emits c ctx cfg) Himg) as E2.
  split.
  - intros Hbo. rewrite (run_after_image _ _ _ _ _ _ _ Hcfg Himg Hbo).
    split; [reflexivity|]. unfold trace; simpl. intros e He.
    apply elem_of_app in He as [He|He].
    + apply (forallb_elem _ _ _ E1) in He. destruct e; try discriminate He; split; reflexivity.
    + apply (forallb_elem _ _ _ E2) in He. destruct e; try discriminate He; split; reflexivity.
  - intros Hbo Hdetach release releaseCommand s3 t3 Hrel.
    pose proof (emits_only_run _ _ _ _ _ _ (createRelease_emits c ctx cfg img) Hrel) as E3.
    rewrite (run_after_release _ _ _ _ _ _ _ _ _ _ _ Hcfg Himg Hbo Hrel Hdetach).
    split; [reflexivity|]. unfold trace; simpl. split.
    + destruct (createRelease_submits _ _ _ _ _ _ _ Hrel) as (input & r & Hin & _).
      exists input. rewrite !elem_of_app. right. right. exact Hin.
    + intros e He. rewrite !elem_of_app in He. destruct He as [He|[He|He]].
      * apply (forallb_elem _ _ _ E1) in He. destruct e; try discriminate He; reflexivity.
      * apply (forallb_elem _ _ _ E2) in He. destruct e; try discriminate He; reflexivity.
      * apply (forallb_elem _ _ _ E3) in He. destruct e; try discriminate He; reflexivity.
Qed.

(** C8: take a run that reaches the dispatch step with release [rel']
    (the submitted release, or the re-fetched one when a release command
    was produced and succeeded).  If the deployment strategy of [rel'] is
    [IMMEDIATE], [run] returns nil and the deployment-watch collaborator is
    never invoked.  Otherwise the last call of the run is the
    deployment-watch collaborator on the evaluation id of [rel'], it is the
    only such call, and [run] returns its outcome. *)
Theorem run_dispatch s cfg s1 t1 img s2 t2 rel rc s3 t3 rel' :
  determineAppConfig c ctx s = (Done (cfg, None), s1, t1) →
  determineImage c ctx cfg s1 = (Done (img, None), s2, t2) →
  flag_build_only (flags ctx) = false →
  createRelease c ctx cfg img s2 = (Done (Some rel, rc, None), s3, t3) →
  flag_detach (flags ctx) = false →
  release_at_dispatch c ctx rel rc = Some rel' →
  (api.DeploymentStrategy rel' = "IMMEDIATE" →
   result (run c ctx s) = Done None ∧
   ∀ id, CallWatchDeployment id ∉ trace (run c ctx s))
  ∧ (api.DeploymentStrategy rel' ≠ "IMMEDIATE" →
     result (run c ctx s) = Done (watch_Deployment c (api.EvaluationID rel')) ∧
     ∃ pre, trace (run c ctx s)
            = pre ++ [CallWatchDeployment (api.EvaluationID rel')] ∧
            ∀ id, CallWatchDeployment id ∉ pre).
Proof.
  intros Hcfg Himg Hbo Hrel Hdetach Hat.
  pose proof (emits_only_run _ _ _ _ _ _ (determineAppConfig_emits c ctx) Hcfg) as E1.
  pose proof (emits_only_run _ _ _ _ _ _ (determineImage_emits c ctx cfg) Himg) as E2.
  pose proof (emits_only_run _ _ _ _ _ _ (createRelease_emits c ctx cfg img) Hrel) as E3.
  assert (N1 : ∀ id, CallWatchDeployment id ∉ t1)
    by (intros id; apply (forallb_not_elem _ _ _ E1); reflexivity).
  assert (N2 : ∀ id, CallWatchDeployment id ∉ t2)
    by (intros id; apply (forallb_not_elem _ _ _ E2); reflexivity).
  assert (N3 : ∀ id, CallWatchDeployment id ∉ t3)
    by (intros id; apply (forallb_not_elem _ _ _ E3); reflexivity).
  clear E1 E2 E3.
  unfold run.
  rewrite (bind_run _ _ _ _ _ _ Hcfg). cbv beta iota zeta.
  rewrite (bind_run _ _ _ _ _ _ Himg). cbv beta iota zeta.
  rewrite Hbo.
  rewrite (bind_run _ _ _ _ _ _ Hrel). cbv beta iota zeta.
  rewrite Hdetach. unfold release_at_dispatch in Hat.
  destruct rc as [k|].
  - destruct (watch_ReleaseCommand c (api.rc_ID k)) as [e|] eqn:Ew; [discriminate|].
    destruct (GetAppRelease c (NameFromContext ctx) (api.ID rel))
      as [[r|] [e|]] eqn:Eg; try discriminate.
    injection Hat as ->.
    split; intros Hs.
    + apply String.eqb_eq in Hs. run_monad. rewrite Hs. simpl.
      split; [reflexivity|]. intros id Hc. elems Hc.
      * exact (N1 _ Hc). * exact (N2 _ Hc). * exact (N3 _ Hc).
    + apply String.eqb_neq in Hs. run_monad. rewrite Hs. simpl.
      split; [reflexivity|].
      eexists (t1 ++ t2 ++ t3 ++ [_; _; _; _; _; _]). split.
      * rewrite <- !app_assoc. reflexivity.
      * intros id Hc. elems Hc.
        -- exact (N1 _ Hc). -- exact (N2 _ Hc). -- exact (N3 _ Hc).
  - injection Hat as ->.
    split; intros Hs.
    + apply String.eqb_eq in Hs. run_monad. rewrite Hs. simpl.
      split; [reflexivity|]. intros id Hc. elems Hc.
      * exact (N1 _ Hc). * exact (N2 _ Hc). * exact (N3 _ Hc).
    + apply String.eqb_neq in Hs. run_monad. rewrite Hs. simpl.
      split; [reflexivity|].
      eexists (t1 ++ t2 ++ t3 ++ [_; _]). split.
      * rewrite <- !app_assoc. reflexivity.
      * intros id Hc. elems Hc.
        -- exact (N1 _ Hc). -- exact (N2 _ Hc). -- exact (N3 _ Hc).
Qed.

End lifecycle.

(** ** The theorems at concrete inputs *)

Lemma sync_failure_is_not_fatal_witness :
  result (NixSourceBuild
            (with_exec_Run (sample.collab "" "" ∅)
               (λ _ _, Some (errorString "exit status 23")))
            (sample.ctx_of sample.flags0) "/proj" sample.store0)
  = Done (Some {| imgsrc.ID := "registry/demo:deployment";
                  imgsrc.Tag := "registry/demo:deployment";
                  imgsrc.Size := 10 |}, None)
  ∧ ∃ pre post a d addr command,
      trace (NixSourceBuild
               (with_exec_Run (sample.collab "" "" ∅)
                  (λ _ _, Some (errorString "exit status 23")))
               (sample.ctx_of sample.flags0) "/proj" sample.store0)
      = pre ++ [ExecRun "/usr/bin/rsync"
                  ["-Dtlcrv"; "--exclude-from=.dockerignore"; "/proj";
                   "rsync://root@localhost:8873/data"];
                Println "code rsync failed: exit status 23";
                Println "Running Nix build...";
                CallRunSSHCommand a d addr command] ++ post.
Proof.
  destruct (sync_failure_is_not_fatal
              (sample.collab "" "" ∅) (sample.ctx_of sample.flags0)
              "/proj" sample.store0 (errorString "exit status 23")
              "/usr/bin/rsync"
              ["-Dtlcrv"; "--exclude-from=.dockerignore"; "/proj";
               "rsync://root@localhost:8873/data"])
    as [[Hresult _] Htrace].
  split; [rewrite Hresult; reflexivity|].
  destruct (Htrace ltac:(vm_compute; find_elem))
    as (pre & post & a & d & addr & command & Hfailed & Hok).
  exists pre, post, a, d, addr, command. exact Hfailed.
Defined.

Lemma proxy_cancelled_exactly_once_witness :
  ∃ pre,
    trace (determineImage (sample.collab "" "" ∅)
             (sample.ctx_of (sample.flags_with true false false "" "" ""))
             (Some sample.config0) sample.store0)
    = pre ++ [CancelProxy]
    ∧ GoProxyConnect sample.proxy_params0 ∈ pre
    ∧ CancelProxy ∉ pre.
Proof.
  exact (proxy_cancelled_exactly_once
           (sample.collab "" "" ∅)
           (sample.ctx_of (sample.flags_with true false false "" "" ""))
           (Some sample.config0) sample.store0 sample.proxy_params0
           ltac:(vm_compute; find_elem)).
Defined.

Lemma run_short_circuits_witness :
  result (run (sample.collab "" "" ∅)
            (sample.ctx_of (sample.flags_with false true false "" "" ""))
            sample.store0) = Done None
  ∧ result (run (sample.with_releases (sample.collab "" "" ∅) sample.release0
                   (Some sample.release_command0) sample.release0)
              (sample.ctx_of (sample.flags_with false false true "" "" ""))
              sample.store0) = Done None.
Proof.
  split.
  - destruct (run_short_circuits
                (sample.collab "" "" ∅)
                (sample.ctx_of (sample.flags_with false true false "" "" ""))
                sample.store0 _ _ _ _ _ _ eq_refl eq_refl) as [Hbuild _].
    destruct (Hbuild eq_refl) as [Hrun _]. rewrite Hrun. reflexivity.
  - destruct (run_short_circuits
                (sample.with_releases (sample.collab "" "" ∅) sample.release0
                   (Some sample.release_command0) sample.release0)
                (sample.ctx_of (sample.flags_with false false true "" "" ""))
                sample.store0 _ _ _ _ _ _ eq_refl eq_refl) as [_ Hdetach].
    destruct (Hdetach eq_refl eq_refl _ _ _ _ eq_refl) as [Hrun _].
    rewrite Hrun. reflexivity.
Defined.

Lemma run_dispatch_witness :
  result (run (sample.with_releases (sample.collab "" "" ∅) sample.release0
                 (Some sample.release_command0) sample.release_immediate)
            (sample.ctx_of sample.flags0) sample.store0) = Done None
  ∧ ∃ pre,
      trace (run (sample.collab "" "" ∅) (sample.ctx_of sample.flags0) sample.store0)
      = pre ++ [CallWatchDeployment "ev1"]
      ∧ ∀ id, CallWatchDeployment id ∉ pre.
Proof.
  split.
  - exact (proj1 (proj1 (run_dispatch
                           (sample.with_releases (sample.collab "" "" ∅)
                              sample.release0 (Some sample.release_command0)
                              sample.release_immediate)
                           (sample.ctx_of sample.flags0) sample.store0
                           _ _ _ _ _ _ _ _ _ _ _
                           eq_refl eq_refl eq_refl eq_refl eq_refl eq_refl)
                    eq_refl)).
  - exact (proj2 (proj2 (run_dispatch
                           (sample.collab "" "" ∅)
                           (sample.ctx_of sample.flags0) sample.store0
                           _ _ _ _ _ _ _ _ _ _ _
                           eq_refl eq_refl eq_refl eq_refl eq_refl eq_refl)
                    ltac:(discriminate))).
Defined.

Lemma config_build_args_mutated_witness :
  maps (store (determineImage (sample.collab "" "" {[ "B" := "3"; "C" := "4" ]})
                 (sample.ctx_of sample.flags0) (Some sample.config0)
                 sample.store0)) !! 0
  = Some {[ "A" := "1"; "B" := "3"; "C" := "4" ]}.
Proof.
  rewrite (proj1 (proj2 (proj2
             (config_build_args_mutated
                (sample.collab "" "" {[ "B" := "3"; "C" := "4" ]})
                (sample.ctx_of sample.flags0) sample.config0 sample.build0 0
                {[ "A" := "1"; "B" := "2" ]} {[ "B" := "3"; "C" := "4" ]}
                sample.store0 eq_refl eq_refl eq_refl eq_refl eq_refl eq_refl)))).
  reflexivity.
Defined.

(** ** Checks of the path functions against the standard library's
       documented results *)

Example Clean_examples :
  filepath.Clean "abc/../../././../def" = "../../def"
  ∧ filepath.Clean "/../abc//def/./ghi/.." = "/abc/def"
  ∧ filepath.Clean "" = "."
  ∧ filepath.Clean "/" = "/"
  ∧ filepath.Clean "a/.." = ".".
Proof. repeat split; reflexivity. Qed.

Example Dir_examples :
  filepath.Dir "/dirty//path///" = "/dirty/path"
  ∧ filepath.Dir "dev.txt" = "."
  ∧ filepath.Dir "../todo.txt" = ".."
  ∧ filepath.Dir "/" = "/"
  ∧ filepath.Dir "/foo/bar/baz.js" = "/foo/bar".
Proof. repeat split; reflexivity. Qed.

Example Join_examples :
  filepath.Join "a/b" "../../../xyz" = "../xyz"
  ∧ filepath.Join "" "" = ""
  ∧ filepath.Join "" "a/" = "a"
  ∧ filepath.Join "/proj" "docker/Dockerfile" = "/proj/docker/Dockerfile".
Proof. repeat split; reflexivity. Qed.

(** The poll in a run where the port accepts the third dial, and in one
    where it never does. *)
Example poll_third_dial :
  Retry (NixSourceBuild_fn (sample.collab "" "" ∅)) 10 sample.store0
  = (Done None, {| maps := maps sample.store0; dials := 3 |}, attempts 3).
Proof. reflexivity. Qed.

Example poll_exhausted (c : Collab) (e : error) :
  (∀ n, net_DialTimeout c n = Some e) →
  result (Retry (NixSourceBuild_fn c) 10 sample.store0)
  = Done (Some (RetriesExhausted e))
  ∧ trace (Retry (NixSourceBuild_fn c) 10 sample.store0) = attempts 10.
Proof.
  intros H. unfold Retry.
  destruct (retry_loop_run c 10 None sample.store0)
    as (k & _ & Ht & _ & _ & [(_ & Hnone & _)|(-> & _ & Hr)]).
  - rewrite H in Hnone. discriminate Hnone.
  - rewrite H in Hr. split; [exact Hr|exact Ht].
Qed.

(** The example of the build-argument merge. *)
Example range_assign_example :
  range_assign {[ "B" := "3"; "C" := "4" ]} {[ "A" := "1"; "B" := "2" ]}
  = ({[ "A" := "1"; "B" := "3"; "C" := "4" ]} : gmap string string).
Proof. reflexivity. Qed.


(** * Further properties of the code *)

(** ** resolveDockerfilePath *)

Lemma IsAbs_Clean path :
  filepath.IsAbs path = true → filepath.IsAbs (filepath.Clean path) = true.
Proof. intros H. unfold filepath.Clean. rewrite H. reflexivity. Qed.

Lemma IsAbs_nonempty path : filepath.IsAbs path = true → nonempty path = true.
Proof. destruct path; [discriminate|reflexivity]. Qed.

Lemma IsAbs_Join a b :
  filepath.IsAbs a = true → filepath.IsAbs (filepath.Join a b) = true.
Proof.
  intros H. unfold filepath.Join. rewrite (IsAbs_nonempty _ H).
  apply IsAbs_Clean. destruct a; [discriminate|exact H].
Qed.

Lemma IsAbs_Dir path :
  filepath.IsAbs path = true → filepath.IsAbs (filepath.Dir path) = true.
Proof.
  intros H. apply IsAbs_Clean. destruct path as [|ch path]; [discriminate|].
  simpl in *. rewrite H. simpl. exact H.
Qed.

Lemma IsAbs_Abs getwd path wd :
  getwd = inr wd → filepath.IsAbs wd = true →
  ∃ p, filepath.Abs getwd path = (p, None) ∧ filepath.IsAbs p = true.
Proof.
  intros -> Hwd. unfold filepath.Abs.
  destruct (filepath.IsAbs path) eqn:E.
  - eexists. split; [reflexivity|]. apply IsAbs_Clean, E.
  - eexists. split; [reflexivity|]. apply IsAbs_Join, Hwd.
Qed.

Lemma IsAbs_not_empty p : filepath.IsAbs p = true → p ≠ "".
Proof. intros H ->. discriminate H. Qed.

(** X1: when the working directory is known and absolute,
    [resolveDockerfilePath] never fails, and the path it returns is either
    empty or absolute; it is empty exactly when neither the configuration
    nor the command line names a Dockerfile. *)
Theorem resolveDockerfilePath_absolute (c : Collab) (ctx : Context)
        (cfg : app.Config) (wd : string) :
  Getwd c = inr wd →
  filepath.IsAbs wd = true →
  ∃ path,
    resolveDockerfilePath c ctx cfg = (path, None) ∧
    (path = "" ∨ filepath.IsAbs path = true) ∧
    (path = "" ↔ Dockerfile c cfg = "" ∧ flag_dockerfile (flags ctx) = "").
Proof.
  intros Hwd Habs. unfold resolveDockerfilePath.
  destruct (nonempty (Dockerfile c cfg)) eqn:Ed.
  - rewrite (Join_nonempty _ _ (Dir_nonempty _)).
    destruct (IsAbs_Abs _ (filepath.Join (filepath.Dir (app.Path cfg)) (Dockerfile c cfg))
                _ Hwd Habs) as (p & -> & Hp).
    exists p. split; [reflexivity|]. split; [right; exact Hp|].
    split.
    + intros ->. discriminate Hp.
    + intros [Hd _]. rewrite Hd in Ed. discriminate Ed.
  - apply nonempty_false in Ed.
    destruct (nonempty (flag_dockerfile (flags ctx))) eqn:Ef.
    + destruct (IsAbs_Abs _ (flag_dockerfile (flags ctx)) _ Hwd Habs) as (p & -> & Hp).
      exists p. split; [reflexivity|]. split; [right; exact Hp|].
      split.
      * intros ->. discriminate Hp.
      * intros [_ Hf]. rewrite Hf in Ef. discriminate Ef.
    + apply nonempty_false in Ef. exists "". rewrite Ef.
      split; [reflexivity|]. split; [left; reflexivity|].
      split; [intros _; split; [exact Ed|reflexivity]|reflexivity].
Qed.

Lemma resolveDockerfilePath_absolute_witness :
  ∃ path,
    resolveDockerfilePath (sample.collab "" "" ∅)
      (sample.ctx_of (sample.flags_with false false false "" "../Dockerfile.dev" ""))
      sample.config0
    = (path, None) ∧
    (path = "" ∨ filepath.IsAbs path = true) ∧
    (path = "" ↔ "" = "" ∧ "../Dockerfile.dev" = "").
Proof.
  exact (resolveDockerfilePath_absolute
           (sample.collab "" "" ∅)
           (sample.ctx_of (sample.flags_with false false false ""
                             "../Dockerfile.dev" ""))
           sample.config0 "/proj" eq_refl eq_refl).
Defined.

(** X2: the only error [resolveDockerfilePath] can return is the error of
    [os.Getwd], and it comes with an empty path.  It arises only where a
    working directory is needed: the configuration file's path is relative
    when the Dockerfile comes from the configuration, and the flag's path is
    relative when it comes from the command line. *)
Theorem resolveDockerfilePath_error (c : Collab) (ctx : Context)
        (cfg : app.Config) (path : string) (e : error) :
  resolveDockerfilePath c ctx cfg = (path, Some e) →
  path = "" ∧ Getwd c = inl e ∧
  (if nonempty (Dockerfile c cfg)
   then filepath.IsAbs (app.Path cfg) = false
   else filepath.IsAbs (flag_dockerfile (flags ctx)) = false).
Proof.
  unfold resolveDockerfilePath.
  destruct (nonempty (Dockerfile c cfg)) eqn:Ed.
  - rewrite (Join_nonempty _ _ (Dir_nonempty _)). unfold filepath.Abs.
    destruct (filepath.IsAbs (filepath.Join _ _)) eqn:Ej; [discriminate|].
    destruct (Getwd c) as [err|wd]; [|discriminate].
    intros [= <- <-]. split; [reflexivity|]. split; [reflexivity|].
    destruct (filepath.IsAbs (app.Path cfg)) eqn:Ep; [|reflexivity].
    rewrite (IsAbs_Join _ _ (IsAbs_Dir _ Ep)) in Ej. discriminate Ej.
  - destruct (nonempty (flag_dockerfile (flags ctx))) eqn:Ef; [|discriminate].
    unfold filepath.Abs.
    destruct (filepath.IsAbs (flag_dockerfile (flags ctx))) eqn:Ea; [discriminate|].
    destruct (Getwd c) as [err|wd]; [|discriminate].
    intros [= <- <-]. repeat split; reflexivity.
Qed.

Lemma resolveDockerfilePath_error_witness :
  Getwd (sample2.collab_of (λ _, inr ∅) sample2.config_ok (None, None) (None, None, None)
           None (None, None) sample2.builder_fail (λ _, None) (inl sample2.boom)
           (inl sample2.boom))
  = inl sample2.boom.
Proof.
  exact (proj1 (proj2 (resolveDockerfilePath_error
           (sample2.collab_of (λ _, inr ∅) sample2.config_ok (None, None) (None, None, None)
              None (None, None) sample2.builder_fail (λ _, None) (inl sample2.boom)
              (inl sample2.boom))
           (sample.ctx_of (sample.flags_with false false false "" "Dockerfile.dev" ""))
           sample.config0 "" sample2.boom eq_refl))).
Defined.

(** ** mergeBuildArgs *)

Lemma range_assign_empty_l (dst : gmap string string) : range_assign ∅ dst = dst.
Proof. rewrite range_assign_union. apply (left_id_L ∅ (∪)). Qed.

Lemma range_assign_empty_r (src : gmap string string) : range_assign src ∅ = src.
Proof. rewrite range_assign_union. apply (right_id_L ∅ (∪)). Qed.

Lemma range_assign_idemp (src dst : gmap string string) :
  range_assign src (range_assign src dst) = range_assign src dst.
Proof.
  rewrite !range_assign_union, (assoc_L (∪)), (idemp_L (∪)). reflexivity.
Qed.

(** X3: when the configuration has no build-args map, the merge allocates
    a new map object that holds exactly the command-line arguments; no map
    object that existed before is changed. *)
Theorem mergeBuildArgs_fresh (c : Collab) (ctx : Context) (s : Store)
        (cli : gmap string string) :
  ParseKVStringsToMap c (flag_build_arg (flags ctx)) = inr cli →
  let r := mergeBuildArgs c ctx None s in
  ∃ l, result r = Done (Some l, None) ∧
       maps s !! l = None ∧
       maps (store r) !! l = Some cli ∧
       ∀ l', l' ≠ l → maps (store r) !! l' = maps s !! l'.
Proof.
  intros Hcli r. subst r. unfold mergeBuildArgs. rewrite Hcli. run_monad.
  exists (fresh (dom (maps s))). split; [reflexivity|]. split.
  - apply not_elem_of_dom, is_fresh.
  - rewrite !lookup_insert_eq. simpl. rewrite range_assign_empty_r.
    split; [reflexivity|]. intros l' Hne. rewrite !lookup_insert_ne by congruence.
    reflexivity.
Qed.

Lemma mergeBuildArgs_fresh_witness :
  ∃ l, maps sample.store0 !! l = None ∧
       maps (store (mergeBuildArgs (sample.collab "" "" {[ "B" := "3" ]})
                      (sample.ctx_of sample.flags0) None sample.store0)) !! l
       = Some {[ "B" := "3" ]} ∧
       maps (store (mergeBuildArgs (sample.collab "" "" {[ "B" := "3" ]})
                      (sample.ctx_of sample.flags0) None sample.store0)) !! 0
       = Some {[ "A" := "1"; "B" := "2" ]}.
Proof.
  destruct (mergeBuildArgs_fresh (sample.collab "" "" {[ "B" := "3" ]})
              (sample.ctx_of sample.flags0) sample.store0 {[ "B" := "3" ]} eq_refl)
    as (l & _ & Hnew & Hl & Hframe).
  exists l. split; [exact Hnew|]. split; [exact Hl|].
  rewrite Hframe; [reflexivity|]. intros <-. discriminate Hnew.
Defined.

(** X4: merging is idempotent.  Because the merge writes into the
    configuration's map, merging the same command line a second time
    returns the same results and leaves the store as the first merge left
    it, whether or not the command line parses. *)
Theorem mergeBuildArgs_idempotent (c : Collab) (ctx : Context) (l : loc) (s : Store) :
  mergeBuildArgs c ctx (Some l) (store (mergeBuildArgs c ctx (Some l) s))
  = mergeBuildArgs c ctx (Some l) s.
Proof.
  unfold mergeBuildArgs.
  destruct (ParseKVStringsToMap c _) as [e|cli]; run_monad; [reflexivity|].
  rewrite lookup_insert_eq. simpl.
  rewrite range_assign_idemp, insert_insert_eq. reflexivity.
Qed.

(** X5: with no command-line build arguments the merge returns the
    configuration's map and changes nothing. *)
Theorem mergeBuildArgs_no_cli (c : Collab) (ctx : Context) (l : loc) (s : Store)
        (m0 : gmap string string) :
  ParseKVStringsToMap c (flag_build_arg (flags ctx)) = inr ∅ →
  maps s !! l = Some m0 →
  mergeBuildArgs c ctx (Some l) s = (Done (Some l, None), s, []).
Proof.
  intros Hcli Hm0. unfold mergeBuildArgs. rewrite Hcli. run_monad.
  rewrite Hm0. simpl. rewrite range_assign_empty_l, (insert_id _ _ _ Hm0).
  destruct s; reflexivity.
Qed.

Lemma mergeBuildArgs_no_cli_witness :
  mergeBuildArgs (sample.collab "" "" ∅) (sample.ctx_of sample.flags0) (Some 0)
    sample.store0
  = (Done (Some 0, None), sample.store0, []).
Proof.
  exact (mergeBuildArgs_no_cli (sample.collab "" "" ∅) (sample.ctx_of sample.flags0)
           0 sample.store0 {[ "A" := "1"; "B" := "2" ]} eq_refl eq_refl).
Defined.

(** ** determineImage, path by path *)

(** X6: on the source-build path, build arguments that do not parse make
    [determineImage] fail with the parse error under the prefix
    [invalid build args: ]; the Docker resolver is not called, and every
    map object that existed keeps its contents. *)
Theorem invalid_build_args (c : Collab) (ctx : Context) (cfg : app.Config)
        (s : Store) (e : error) :
  flag_nix (flags ctx) = false →
  (fetchImageRef ctx (Some cfg)).1 = "" →
  ParseKVStringsToMap c (flag_build_arg (flags ctx)) = inl e →
  let r := determineImage c ctx (Some cfg) s in
  result r = Done (None, Some (wrapError "invalid build args: " e)) ∧
  (∀ rs opts, CallBuildImage rs opts ∉ trace r) ∧
  (∀ l m, maps s !! l = Some m → maps (store r) !! l = Some m).
Proof.
  intros Hnix Href Hcli r. subst r. unfold determineImage. rewrite Hnix.
  pose proof (fetchImageRef_no_error ctx (Some cfg)) as Herr.
  destruct (fetchImageRef ctx (Some cfg)) as [ref err]. simpl in Href, Herr.
  subst ref err. unfold mergeBuildArgs. rewrite Hcli.
  destruct (app.Args _) as [l0|]; run_monad.
  - split; [reflexivity|]. split; [intros rs opts H; elems H|]. intros l m H; exact H.
  - split; [reflexivity|]. split; [intros rs opts H; elems H|]. intros l m H.
    rewrite lookup_insert_ne; [exact H|]. intros <-.
    pose proof (is_fresh (dom (maps s))) as Hf.
    apply not_elem_of_dom in Hf. congruence.
Qed.

Lemma invalid_build_args_witness :
  result (determineImage
            (sample2.collab_of (λ _, inl sample2.boom) sample2.config_ok (Some sample.image0, None)
               (None, None, None) None (None, None) sample2.builder_fail (λ _, None)
               (inl sample2.boom) (inr "/proj"))
            (sample.ctx_of sample.flags0) (Some sample.config0) sample.store0)
  = Done (None, Some (wrapError "invalid build args: " sample2.boom)).
Proof.
  exact (proj1 (invalid_build_args
           (sample2.collab_of (λ _, inl sample2.boom) sample2.config_ok (Some sample.image0, None)
              (None, None, None) None (None, None) sample2.builder_fail (λ _, None)
              (inl sample2.boom) (inr "/proj"))
           (sample.ctx_of sample.flags0) sample.config0 sample.store0 sample2.boom
           eq_refl eq_refl eq_refl)).
Defined.

(** X7: on the source-build path, when the Docker resolver returns neither
    an image nor an error, [determineImage] returns the error
    [no image specified] and prints no image line. *)
Theorem build_without_image (c : Collab) (ctx : Context) (cfg : app.Config)
        (s : Store) (cli : gmap string string) :
  flag_nix (flags ctx) = false →
  (fetchImageRef ctx (Some cfg)).1 = "" →
  ParseKVStringsToMap c (flag_build_arg (flags ctx)) = inr cli →
  (resolveDockerfilePath c ctx cfg).2 = None →
  (∀ r opts m, BuildImage c r opts m = (None, None)) →
  let r := determineImage c ctx (Some cfg) s in
  result r = Done (None, Some (errorString "no image specified")) ∧
  (∃ rs opts, CallBuildImage rs opts ∈ trace r) ∧
  (∀ msg, TbPrintf msg ∉ trace r).
Proof.
  intros Hnix Href Hcli Hpath Hbuild r. subst r. unfold determineImage. rewrite Hnix.
  pose proof (fetchImageRef_no_error ctx (Some cfg)) as Herr.
  destruct (fetchImageRef ctx (Some cfg)) as [ref err]. simpl in Href, Herr.
  subst ref err. unfold mergeBuildArgs. rewrite Hcli.
  destruct (resolveDockerfilePath c ctx cfg) as [path perr]. simpl in Hpath. subst perr.
  destruct (app.Args _) as [l0|]; run_monad; rewrite Hbuild; simpl;
    (split; [reflexivity|]);
    (split; [eexists _, _; find_elem|intros msg H; elems H]).
Qed.

Lemma build_without_image_witness :
  result (determineImage
            (sample2.collab_of (λ _, inr ∅) sample2.config_ok (None, None)
               (None, None, None) None (None, None) sample2.builder_fail (λ _, None)
               (inl sample2.boom) (inr "/proj"))
            (sample.ctx_of sample.flags0) (Some sample.config0) sample.store0)
  = Done (None, Some (errorString "no image specified")).
Proof.
  exact (proj1 (build_without_image
           (sample2.collab_of (λ _, inr ∅) sample2.config_ok (None, None)
              (None, None, None) None (None, None) sample2.builder_fail (λ _, None)
              (inl sample2.boom) (inr "/proj"))
           (sample.ctx_of sample.flags0) sample.config0 sample.store0 ∅
           eq_refl eq_refl eq_refl eq_refl (λ _ _ _, eq_refl))).
Defined.

(** X8: with an image reference (the image flag, or else the image the
    configuration declares) and no nix selector, [determineImage] makes one
    call, to the reference resolver, and returns what that call returns.
    The reference it passes is the flag whenever the flag is non-empty; the
    configuration's maps are not touched and the Docker build is not
    started. *)
Theorem reference_path_delegates (c : Collab) (ctx : Context)
        (cfg : option app.Config) (s : Store) :
  flag_nix (flags ctx) = false →
  nonempty (fetchImageRef ctx cfg).1 = true →
  ∃ resolver opts,
    determineImage c ctx cfg s
    = (Done (ResolveReference c resolver opts (maps s)), s,
       [NewTextBlock (Some "Building image"); CallResolveReference resolver opts]) ∧
    imgsrc.ImageRef opts = (fetchImageRef ctx cfg).1 ∧
    (nonempty (flag_image (flags ctx)) = true →
     imgsrc.ImageRef opts = flag_image (flags ctx)) ∧
    imgsrc.ref_Publish opts = negb (flag_build_only (flags ctx)).
Proof.
  intros Hnix Href. unfold determineImage. rewrite Hnix.
  pose proof (fetchImageRef_no_error ctx cfg) as Herr.
  assert (Hflag : nonempty (flag_image (flags ctx)) = true →
                  (fetchImageRef ctx cfg).1 = flag_image (flags ctx)).
  { intros H. unfold fetchImageRef. rewrite H. reflexivity. }
  destruct (fetchImageRef ctx cfg) as [ref err]. simpl in Href, Herr, Hflag.
  subst err. rewrite Href. run_monad.
  eexists _, _. split; [reflexivity|]. simpl.
  split; [reflexivity|]. split; [exact Hflag|reflexivity].
Qed.

Lemma reference_path_delegates_witness :
  ∃ resolver opts,
    trace (determineImage (sample.collab "" "" ∅)
             (sample.ctx_of (sample.flags_with false false false "nginx:latest" "" ""))
             (Some sample.config0) sample.store0)
    = [NewTextBlock (Some "Building image"); CallResolveReference resolver opts] ∧
    imgsrc.ImageRef opts = "nginx:latest".
Proof.
  destruct (reference_path_delegates (sample.collab "" "" ∅)
              (sample.ctx_of (sample.flags_with false false false "nginx:latest" "" ""))
              (Some sample.config0) sample.store0 eq_refl eq_refl)
    as (resolver & opts & Hrun & Href & _).
  exists resolver, opts. rewrite Hrun. split; [reflexivity|exact Href].
Defined.

(** ** NixSourceBuild *)

(** The poll succeeds exactly when one of its ten dials does; it never
    panics and leaves the map objects alone. *)
Lemma Retry_outcome (c : Collab) (s : Store) :
  ∃ k r,
    Retry (NixSourceBuild_fn c) 10 s
    = (Done r, {| maps := maps s; dials := dials s + k |}, attempts k) ∧
    (r = None ↔ ∃ i, i < 10 ∧ net_DialTimeout c (dials s + i) = None).
Proof.
  unfold Retry.
  destruct (retry_loop_run c 10 None s) as (k & Hk & Ht & Hs & Hbefore & Hend).
  destruct (retry_loop (NixSourceBuild_fn c) 10 None s) as [[r s1] t1].
  unfold trace, store, result in *. simpl in *. subst s1 t1.
  destruct Hend as [(Hpos & Hnone & ->)|(-> & Hfail & ->)].
  - exists k, None. split; [reflexivity|]. split; [|reflexivity].
    intros _. exists (k - 1). split; [lia|exact Hnone].
  - specialize (Hfail ltac:(lia)).
    exists 10, (RetriesExhausted <$> net_DialTimeout c (dials s + 9)).
    split; [reflexivity|].
    destruct (net_DialTimeout c (dials s + 9)) as [last|] eqn:E; [|congruence].
    simpl. split; [discriminate|].
    intros (i & Hi & Hnone). exfalso.
    destruct (decide (i = 9)) as [->|Hne]; [congruence|].
    apply (Hbefore i); [lia|exact Hnone].
Qed.

Lemma NixSourceBuild_maps (c : Collab) (ctx : Context) wd s :
  maps (store (NixSourceBuild c ctx wd s)) = maps s.
Proof.
  unfold NixSourceBuild.
  destruct (Retry_outcome c s) as (k & r & Hpoll & _).
  revert Hpoll. generalize (Retry (NixSourceBuild_fn c) 10). intros poll Hpoll.
  destruct (RemoteBuilderMachine c _) as [[m a] [err|]]; [reflexivity|].
  destruct (Establish c) as [err|ac]; [reflexivity|].
  destruct a as [a|]; [|reflexivity].
  destruct (ConnectToTunnel c ac _) as [err|d]; [reflexivity|].
  run_monad. rewrite Hpoll. destruct r as [e|]; [reflexivity|].
  destruct (exec_Run c _ _) as [ex|];
    destruct (RunSSHCommand c a d _ _) as [es|resp]; reflexivity.
Qed.

(** X9: with the nix selector, [determineImage] delegates entirely to the
    remote build: apart from opening the text block it does what
    [NixSourceBuild] does and returns what it returns, whatever the
    configuration and the image flag; neither resolver is consulted and no
    map object is changed. *)
Theorem nix_path_delegates (c : Collab) (ctx : Context)
        (cfg : option app.Config) (s : Store) :
  flag_nix (flags ctx) = true →
  let r := determineImage c ctx cfg s in
  let b := NixSourceBuild c ctx (WorkingDirectory ctx) s in
  result r = result b ∧
  store r = store b ∧
  trace r = NewTextBlock (Some "Building image") :: trace b ∧
  maps (store r) = maps s ∧
  ∀ e, e ∈ trace r → is_CallResolveReference e = false ∧ is_CallBuildImage e = false.
Proof.
  intros Hnix r b. subst r b.
  pose proof (determineImage_nix_emits c ctx cfg Hnix s) as Hev.
  pose proof (NixSourceBuild_maps c ctx (WorkingDirectory ctx) s) as Hmaps.
  pose proof (NixSourceBuild_image_or_error c ctx (WorkingDirectory ctx) s) as Hone.
  revert Hev. unfold determineImage. rewrite Hnix. run_monad.
  destruct (NixSourceBuild c ctx (WorkingDirectory ctx) s) as [[[[img [e|]]|msg] s1] t1];
    simpl in *; intros Hev.
  - destruct (Hone img (Some e) eq_refl) as [[-> _]|[_ Hno]]; [|discriminate Hno].
    rewrite app_nil_r. repeat split; try reflexivity; try exact Hmaps.
    all: rewrite ?app_nil_r in Hev; apply elem_of_cons in H as [->|H];
      [reflexivity|]; apply (forallb_elem _ _ _ Hev) in H;
      destruct e0; try discriminate H; reflexivity.
  - rewrite app_nil_r. repeat split; try reflexivity; try exact Hmaps.
    all: rewrite ?app_nil_r in Hev; apply elem_of_cons in H as [->|H];
      [reflexivity|]; apply (forallb_elem _ _ _ Hev) in H;
      destruct e; try discriminate H; reflexivity.
  - repeat split; try reflexivity; try exact Hmaps.
    all: apply elem_of_cons in H as [->|H];
      [reflexivity|]; apply (forallb_elem _ _ _ Hev) in H;
      destruct e; try discriminate H; reflexivity.
Qed.

Lemma nix_path_delegates_witness :
  result (determineImage (sample.collab "" "" ∅)
            (sample.ctx_of (sample.flags_with true false false "nginx:latest" "" ""))
            None sample.store0)
  = Done (Some {| imgsrc.ID := "registry/demo:deployment";
                  imgsrc.Tag := "registry/demo:deployment";
                  imgsrc.Size := 10 |}, None).
Proof.
  rewrite (proj1 (nix_path_delegates (sample.collab "" "" ∅)
                    (sample.ctx_of (sample.flags_with true false false
                                      "nginx:latest" "" ""))
                    None sample.store0 eq_refl)).
  reflexivity.
Defined.

(** X10: when the builder machine cannot be found, the agent cannot be
    reached or the tunnel cannot be opened, [NixSourceBuild] returns that
    very error, unwrapped, with no image; it has made only the set-up calls:
    no proxy is started, nothing is dialled, synced or run remotely, and the
    store is unchanged. *)
Theorem tunnel_setup_failure (c : Collab) (ctx : Context) (wd : string)
        (s : Store) (err : error) :
  (∃ m a, RemoteBuilderMachine c (NameFromContext ctx) = (m, a, Some err))
  ∨ (∃ m a, RemoteBuilderMachine c (NameFromContext ctx) = (m, a, None) ∧
            (Establish c = inl err
             ∨ ∃ ac b, a = Some b ∧ Establish c = inr ac ∧
                       ConnectToTunnel c ac (api.Slug (api.Organization_ b))
                       = inl err)) →
  let r := NixSourceBuild c ctx wd s in
  result r = Done (None, Some err) ∧
  store r = s ∧
  ∀ e, e ∈ trace r → setup_event e = true.
Proof.
  intros H r. subst r. unfold NixSourceBuild.
  destruct H as [(m & a & ->)|(m & a & -> & [->|(ac & b & -> & -> & ->)])];
    run_monad;
    (split; [reflexivity|]); (split; [reflexivity|]);
    intros e He; elems He; subst e; reflexivity.
Qed.

Lemma tunnel_setup_failure_witness :
  result (NixSourceBuild
            (sample2.collab_of (λ _, inr ∅) sample2.config_ok (None, None) (None, None, None)
               None (None, None) sample2.builder_fail (λ _, None) (inr "built")
               (inr "/proj"))
            (sample.ctx_of sample.flags0) "/proj" sample.store0)
  = Done (None, Some sample2.boom).
Proof.
  exact (proj1 (tunnel_setup_failure
           (sample2.collab_of (λ _, inr ∅) sample2.config_ok (None, None) (None, None, None)
              None (None, None) sample2.builder_fail (λ _, None) (inr "built")
              (inr "/proj"))
           (sample.ctx_of sample.flags0) "/proj" sample.store0 sample2.boom
           (or_introl (ex_intro _ None (ex_intro _ None eq_refl))))).
Defined.

Lemma NixSourceBuild_tunnel_not_ready_witness :
  ∃ e,
    result (NixSourceBuild
              (sample2.collab_of (λ _, inr ∅) sample2.config_ok (None, None) (None, None, None)
                 None (None, None) sample2.builder_ok (λ _, Some sample2.boom)
                 (inr "built") (inr "/proj"))
              (sample.ctx_of sample.flags0) "/proj" sample.store0)
    = Done (None, Some e) ∧ wraps e sample2.boom.
Proof.
  destruct (NixSourceBuild_tunnel_not_ready
              (sample2.collab_of (λ _, inr ∅) sample2.config_ok (None, None) (None, None, None)
                 None (None, None) sample2.builder_ok (λ _, Some sample2.boom)
                 (inr "built") (inr "/proj"))
              (sample.ctx_of sample.flags0) "/proj" sample.store0
              _ _ _ _ eq_refl eq_refl eq_refl ltac:(intros i _; discriminate))
    as (e & last & Hlast & Hr & Hw & _).
  exists e. split; [exact Hr|]. injection Hlast as <-. exact Hw.
Defined.



(** X13: whenever [NixSourceBuild] returns an image, the image's tag and id
    are both the deployment tag of the application with an empty label, its
    size is the fixed value 10, and the remote command was run and
    succeeded, its output being printed. *)
Theorem NixSourceBuild_success (c : Collab) (ctx : Context) (wd : string)
        (s : Store) img err :
  result (NixSourceBuild c ctx wd s) = Done (Some img, err) →
  err = None ∧
  img = {| imgsrc.ID := NewDeploymentTag c (NameFromContext ctx) "";
           imgsrc.Tag := NewDeploymentTag c (NameFromContext ctx) "";
           imgsrc.Size := 10 |} ∧
  ∃ b n addr cmd resp,
    CallRunSSHCommand b n addr cmd ∈ trace (NixSourceBuild c ctx wd s) ∧
    RunSSHCommand c b n addr cmd = inr resp ∧
    Println resp ∈ trace (NixSourceBuild c ctx wd s).
Proof.
  unfold NixSourceBuild.
  destruct (Retry_outcome c s) as (k & r & Hpoll & _).
  revert Hpoll. generalize (Retry (NixSourceBuild_fn c) 10). intros poll Hpoll.
  destruct (RemoteBuilderMachine c _) as [[m a] [e|]]; [run_monad; discriminate|].
  destruct (Establish c) as [e|ac]; [run_monad; discriminate|].
  destruct a as [a|]; [|run_monad; discriminate].
  destruct (ConnectToTunnel c ac _) as [e|d]; [run_monad; discriminate|].
  run_monad. rewrite Hpoll. destruct r as [e|]; simpl; [discriminate|].
  destruct (exec_Run c _ _) as [ex|];
    destruct (RunSSHCommand c a d _ _) as [es|resp] eqn:Essh; simpl;
    try discriminate; intros [= <- <-];
    (split; [reflexivity|]); (split; [reflexivity|]);
    eexists a, d, _, _, resp; (split; [|split; [exact Essh|]]);
    rewrite <- ?app_assoc; simpl;
    repeat (rewrite elem_of_cons; right); rewrite elem_of_app; right; find_elem.
Qed.

Lemma NixSourceBuild_success_witness :
  ∃ img,
    result (NixSourceBuild (sample.collab "" "" ∅) (sample.ctx_of sample.flags0)
              "/proj" sample.store0) = Done (Some img, None) ∧
    img = {| imgsrc.ID := "registry/demo:deployment";
             imgsrc.Tag := "registry/demo:deployment";
             imgsrc.Size := 10 |}.
Proof.
  eexists. split; [reflexivity|].
  exact (proj1 (proj2 (NixSourceBuild_success (sample.collab "" "" ∅)
                         (sample.ctx_of sample.flags0) "/proj" sample.store0
                         _ None eq_refl))).
Defined.

(** X14: when the tunnel is up and the port answers but the remote command
    fails, [NixSourceBuild] returns no image and an error that wraps the
    command's error and has the same message; this is so whether or not the
    sync process failed before. *)
Theorem remote_build_failure (c : Collab) (ctx : Context) (wd : string)
        (s : Store) m a ac d e :
  RemoteBuilderMachine c (NameFromContext ctx) = (m, Some a, None) →
  Establish c = inr ac →
  ConnectToTunnel c ac (api.Slug (api.Organization_ a)) = inr d →
  (∃ i, i < 10 ∧ net_DialTimeout c (dials s + i) = None) →
  (∀ addr cmd, RunSSHCommand c a d addr cmd = inl e) →
  ∃ err,
    result (NixSourceBuild c ctx wd s) = Done (None, Some err) ∧
    wraps err e ∧ Error err = Error e.
Proof.
  intros Hm Hac Hd Hdial Hssh. unfold NixSourceBuild.
  rewrite Hm. cbv beta iota. rewrite Hac. cbv beta iota. rewrite Hd.
  destruct (Retry_outcome c s) as (k & r & Hpoll & Hiff).
  revert Hpoll. generalize (Retry (NixSourceBuild_fn c) 10). intros poll Hpoll.
  apply Hiff in Hdial. subst r.
  run_monad. rewrite Hpoll. simpl.
  exists (wrapError "" e).
  destruct (exec_Run c _ _) as [ex|]; simpl; rewrite Hssh; simpl;
    (split; [reflexivity|]); (split; [apply wraps_step, wraps_here|reflexivity]).
Qed.

Lemma remote_build_failure_witness :
  ∃ err,
    result (NixSourceBuild
              (sample2.collab_of (λ _, inr ∅) sample2.config_ok (None, None) (None, None, None)
                 None (None, None) sample2.builder_ok (λ _, None)
                 (inl sample2.boom) (inr "/proj"))
              (sample.ctx_of sample.flags0) "/proj" sample.store0)
    = Done (None, Some err) ∧ wraps err sample2.boom ∧ Error err = "boom".
Proof.
  exact (remote_build_failure
           (sample2.collab_of (λ _, inr ∅) sample2.config_ok (None, None) (None, None, None)
              None (None, None) sample2.builder_ok (λ _, None)
              (inl sample2.boom) (inr "/proj"))
           (sample.ctx_of sample.flags0) "/proj" sample.store0
           (Some sample.builder0.1) sample.builder0.2 1 2 sample2.boom
           eq_refl eq_refl eq_refl
           (ex_intro _ 0 (conj (Nat.lt_0_succ 9) eq_refl)) (λ _ _, eq_refl)).
Defined.

(** ** determineAppConfig *)



(** X16: with a local configuration the API is not asked for one.  With no
    env flag the local configuration is returned as it is; with env flags
    that parse, it is returned with those variables set; with env flags
    that do not parse, the parse error is returned under the prefix
    [failed parsing environment: ] and the stage is not reported as done. *)
Theorem determineAppConfig_local (c : Collab) (ctx : Context) (s : Store)
        (cfg0 : app.Config) :
  ConfigFromContext ctx = Some cfg0 →
  let r := determineAppConfig c ctx s in
  (∀ a, CallGetConfig a ∉ trace r) ∧
  (flag_env (flags ctx) = [] →
   r = (Done (Some cfg0, None), s,
        [NewTextBlock (Some "Verifying app config"); TbDone "Verified app config"])) ∧
  (flag_env (flags ctx) ≠ [] →
   match ParseKVStringsToMap c (flag_env (flags ctx)) with
   | inr parsedEnv =>
       result r = Done (Some (SetEnvVariables c cfg0 parsedEnv), None)
   | inl e =>
       result r = Done (Some cfg0, Some (wrapError "failed parsing environment: " e)) ∧
       ∀ msg, TbDone msg ∉ trace r
   end).
Proof.
  intros Hcfg r. subst r. unfold determineAppConfig. rewrite Hcfg.
  split; [|split].
  - intros a.
    destruct (bool_decide (0 < length (flag_env (flags ctx))));
      [destruct (ParseKVStringsToMap c _) as [e|penv]|]; run_monad;
      intros H; elems H.
  - intros ->. reflexivity.
  - intros Hne.
    assert (Hlen : bool_decide (0 < length (flag_env (flags ctx))) = true).
    { apply bool_decide_eq_true. destruct (flag_env (flags ctx)); [congruence|simpl; lia]. }
    rewrite Hlen.
    destruct (ParseKVStringsToMap c _) as [e|penv]; run_monad; [|reflexivity].
    split; [reflexivity|]. intros msg H. elems H.
Qed.

Lemma determineAppConfig_local_witness :
  determineAppConfig (sample.collab "" "" ∅) (sample.ctx_of sample.flags0)
    sample.store0
  = (Done (Some sample.config0, None), sample.store0,
     [NewTextBlock (Some "Verifying app config"); TbDone "Verified app config"]).
Proof.
  exact (proj1 (proj2 (determineAppConfig_local (sample.collab "" "" ∅)
                         (sample.ctx_of sample.flags0) sample.store0
                         sample.config0 eq_refl)) eq_refl).
Defined.

(** ** run *)

(** Events a stage of [run] can emit, for any predicate that covers the
    stage's own events. *)
Ltac covers := intros [] H; first [reflexivity | discriminate H].

Ltac eo_stage :=
  match goal with
  | |- emits_only _ (determineAppConfig _ _) =>
      eapply eo_weaken; [|apply determineAppConfig_emits]; covers
  | |- emits_only _ (determineImage _ _ _) =>
      eapply eo_weaken; [|apply determineImage_emits]; covers
  | |- emits_only _ (createRelease _ _ _ _) =>
      eapply eo_weaken; [|apply createRelease_emits]; covers
  | _ => eo_step
  end.

Ltac eo_run := repeat eo_stage.

(** X17: when there is no local configuration and fetching one from the
    API fails, [run] returns that error under the prefix
    [failed fetching existing app config: ] and does nothing else: no image is
    acquired and no release is submitted. *)
Theorem run_config_fetch_failure (c : Collab) (ctx : Context) (s : Store)
        (e : error) (reply : option api.AppConfig) :
  ConfigFromContext ctx = None →
  GetConfig c (NameFromContext ctx) = (reply, Some e) →
  run c ctx s
  = (Done (Some (wrapError "failed fetching existing app config: " e)), s,
     [NewTextBlock (Some "Verifying app config");
      LoggerDebug "no local app config detected; fetching from backend ...";
      CallGetConfig (NameFromContext ctx)]).
Proof.
  intros Hcfg Hget. unfold run.
  erewrite bind_run.
  2: { unfold determineAppConfig. rewrite Hcfg, Hget. reflexivity. }
  reflexivity.
Qed.

Lemma run_config_fetch_failure_witness :
  result (run (sample2.collab_of (λ _, inr ∅) (None, Some sample2.boom) (None, None)
                 (None, None, None) None (None, None) sample2.builder_fail
                 (λ _, None) (inl sample2.boom) (inr "/proj"))
            (sample2.ctx_without_config sample.flags0) sample.store0)
  = Done (Some (wrapError "failed fetching existing app config: " sample2.boom)).
Proof.
  rewrite (run_config_fetch_failure
             (sample2.collab_of (λ _, inr ∅) (None, Some sample2.boom) (None, None)
                (None, None, None) None (None, None) sample2.builder_fail
                (λ _, None) (inl sample2.boom) (inr "/proj"))
             (sample2.ctx_without_config sample.flags0) sample.store0
             sample2.boom None eq_refl eq_refl).
  reflexivity.
Defined.

(** X18: with the build-only selector, whatever the collaborators do, [run]
    never submits a release and never calls a watcher or re-fetches a
    release. *)
Theorem build_only_never_releases (c : Collab) (ctx : Context) (s : Store) :
  flag_build_only (flags ctx) = true →
  ∀ e, e ∈ trace (run c ctx s) → is_CallDeployImage e = false ∧ is_wait e = false.
Proof.
  intros Hbo.
  assert (Hev : emits_only (λ e, negb (is_CallDeployImage e || is_wait e)) (run c ctx)).
  { unfold run. destruct (flag_build_only (flags ctx)); [|discriminate]. eo_run. }
  intros e He. apply (forallb_elem _ _ _ (Hev s)) in He.
  apply negb_true_iff, orb_false_elim in He. exact He.
Qed.

Lemma build_only_never_releases_witness :
  Forall (λ e, is_CallDeployImage e = false ∧ is_wait e = false)
         (trace (run (sample.collab "" "" ∅)
                   (sample.ctx_of (sample.flags_with false true false "" "" ""))
                   sample.store0)).
Proof.
  apply Forall_forall.
  exact (build_only_never_releases (sample.collab "" "" ∅)
           (sample.ctx_of (sample.flags_with false true false "" "" ""))
           sample.store0 eq_refl).
Defined.

(** X19: with the detach selector, whatever the collaborators do, [run]
    never waits: it calls neither watcher and never re-fetches a release. *)
Theorem detach_never_waits (c : Collab) (ctx : Context) (s : Store) :
  flag_detach (flags ctx) = true →
  ∀ e, e ∈ trace (run c ctx s) → is_wait e = false.
Proof.
  intros Hd.
  assert (Hev : emits_only (λ e, negb (is_wait e)) (run c ctx)).
  { unfold run. destruct (flag_detach (flags ctx)); [|discriminate]. eo_run. }
  intros e He. apply (forallb_elem _ _ _ (Hev s)) in He.
  apply negb_true_iff in He. exact He.
Qed.

Lemma detach_never_waits_witness :
  Forall (λ e, is_wait e = false)
         (trace (run (sample.with_releases (sample.collab "" "" ∅) sample.release0
                        (Some sample.release_command0) sample.release0)
                   (sample.ctx_of (sample.flags_with false false true "" "" ""))
                   sample.store0)).
Proof.
  apply Forall_forall.
  exact (detach_never_waits
           (sample.with_releases (sample.collab "" "" ∅) sample.release0
              (Some sample.release_command0) sample.release0)
           (sample.ctx_of (sample.flags_with false false true "" "" ""))
           sample.store0 eq_refl).
Defined.

(** ** Counting the calls of a run *)

Lemma count_events_app P t1 t2 :
  count_events P (t1 ++ t2) = count_events P t1 + count_events P t2.
Proof. induction t1 as [|e t1 IH]; simpl; [reflexivity|]. rewrite IH. lia. Qed.

Lemma count_events_none P t :
  forallb (λ e, negb (P e)) t = true → count_events P t = 0.
Proof.
  induction t as [|e t IH]; simpl; [reflexivity|].
  intros H. apply andb_prop in H as [He Ht].
  apply negb_true_iff in He. rewrite He, (IH Ht). reflexivity.
Qed.

Section at_most.

Context (P : Event → bool).

Lemma am_none {A} (m : M A) n :
  emits_only (λ e, negb (P e)) m → emits_at_most P n m.
Proof. intros H s. rewrite (count_events_none _ _ (H s)). lia. Qed.

Lemma am_emit e : emits_at_most P 1 (emit e).
Proof. intros s. unfold trace; simpl. destruct (P e); simpl; lia. Qed.

Lemma am_bind_l {A B} (m : M A) (k : A → M B) n :
  emits_only (λ e, negb (P e)) m →
  (∀ a, emits_at_most P n (k a)) →
  emits_at_most P n (m ≫= k).
Proof.
  intros Hm Hk s. rewrite trace_bind.
  pose proof (count_events_none _ _ (Hm s)) as H0.
  destruct (result (m s)); [|lia].
  rewrite count_events_app, H0. apply Hk.
Qed.

Lemma am_bind_r {A B} (m : M A) (k : A → M B) n :
  emits_at_most P n m →
  (∀ a, emits_only (λ e, negb (P e)) (k a)) →
  emits_at_most P n (m ≫= k).
Proof.
  intros Hm Hk s. rewrite trace_bind. specialize (Hm s).
  destruct (result (m s)); [|exact Hm].
  rewrite count_events_app, (count_events_none _ _ (Hk _ _)). lia.
Qed.

Lemma am_defer {A} (d : M unit) (body : M A) n :
  emits_only (λ e, negb (P e)) d →
  emits_at_most P n body →
  emits_at_most P n (defer d body).
Proof.
  intros Hd Hb s. rewrite trace_defer, count_events_app.
  rewrite (count_events_none _ _ (Hd _)). specialize (Hb s). lia.
Qed.

End at_most.

(** Walks down a computation to its one counted call: everything before
    and after emits none. *)
Ltac am_step :=
  match goal with
  | |- emits_at_most _ _ (emit _ ≫= _) =>
      first [ apply am_bind_r; [apply am_emit | intros; solve [eo_run]]
            | apply am_bind_l; [solve [eo_run] | intros] ]
  | |- emits_at_most _ _ (defer _ _) => apply am_defer; [solve [eo_run]|]
  | |- emits_at_most _ _ (_ ≫= _) =>
      first [ apply am_bind_l; [solve [eo_run] | intros]
            | apply am_bind_r; [| intros; solve [eo_run]] ]
  | |- emits_at_most _ _ (match ?x with _ => _ end) => destruct x
  | |- emits_at_most _ _ (let '(_, _) := ?x in _) => destruct x
  end.

Ltac am := repeat first [ solve [apply am_none; eo_run] | am_step ].

Section counts.

Context (c : Collab) (ctx : Context).

Lemma NixSourceBuild_one_command wd :
  emits_at_most is_acquire 1 (NixSourceBuild c ctx wd).
Proof. unfold NixSourceBuild. am. Qed.

Lemma determineImage_one_acquisition cfg :
  emits_at_most is_acquire 1 (determineImage c ctx cfg).
Proof.
  unfold determineImage.
  apply am_bind_l; [solve [eo_run]|]. intros _.
  destruct (flag_nix (flags ctx)).
  - apply am_bind_r; [apply NixSourceBuild_one_command|]. intros. eo_run.
  - unfold mergeBuildArgs. am.
Qed.

Lemma createRelease_one_submission cfg img :
  emits_at_most is_CallDeployImage 1 (createRelease c ctx cfg img).
Proof. unfold createRelease. am. Qed.

(** X20: a run acquires at most one image (at most one call among the
    reference resolver, the Docker build and the remote build command),
    submits at most one release and watches at most one deployment. *)
Theorem run_at_most_once (s : Store) :
  count_events is_acquire (trace (run c ctx s)) ≤ 1
  ∧ count_events is_CallDeployImage (trace (run c ctx s)) ≤ 1
  ∧ count_events is_CallWatchDeployment (trace (run c ctx s)) ≤ 1.
Proof.
  split; [|split].
  - revert s. change (emits_at_most is_acquire 1 (run c ctx)). unfold run.
    apply am_bind_l; [solve [eo_run]|]. intros [cfg [e|]]; [am|].
    apply am_bind_r; [apply determineImage_one_acquisition|].
    intros. eo_run.
  - revert s. change (emits_at_most is_CallDeployImage 1 (run c ctx)). unfold run.
    apply am_bind_l; [solve [eo_run]|]. intros [cfg [e|]]; [am|].
    apply am_bind_l; [solve [eo_run]|]. intros [img [e|]]; [am|].
    destruct (flag_build_only (flags ctx)); [am|].
    apply am_bind_r; [apply createRelease_one_submission|].
    intros. eo_run.
  - revert s. change (emits_at_most is_CallWatchDeployment 1 (run c ctx)). unfold run.
    am.
Qed.

End counts.

(** ** What a run's stages hand to each other *)

Ltac run_monad_in H :=
  unfold defer, mbind, M_bind, bind, emit, mret, M_ret, ret, panic, with_maps,
    trace, result, store in H; simpl in H.

Lemma determineAppConfig_cases (c : Collab) (ctx : Context) (s : Store) :
  ∃ r s1 t1,
    determineAppConfig c ctx s = (r, s1, t1) ∧
    ∀ cfg, r = Done (cfg, None) → cfg ≠ None.
Proof.
  unfold determineAppConfig.
  destruct (ConfigFromContext ctx) as [cfg0|];
    [|destruct (GetConfig c _) as [[ac|] [e|]]];
    (destruct (bool_decide (0 < length (flag_env (flags ctx))));
     [destruct (ParseKVStringsToMap c _) as [e'|penv]|]);
    run_monad; eexists _, _, _; (split; [reflexivity|]); congruence.
Qed.

Lemma determineAppConfig_done (c : Collab) (ctx : Context) (s : Store) :
  (∀ a, GetConfig c a ≠ (None, None)) →
  ∃ cfg err s1 t1,
    determineAppConfig c ctx s = (Done (cfg, err), s1, t1) ∧
    (err = None → cfg ≠ None).
Proof.
  intros Hget. unfold determineAppConfig.
  destruct (ConfigFromContext ctx) as [cfg0|];
    [|pose proof (Hget (NameFromContext ctx)) as Hg;
      destruct (GetConfig c _) as [[ac|] [e|]]; [| | |congruence]];
    (destruct (bool_decide (0 < length (flag_env (flags ctx))));
     [destruct (ParseKVStringsToMap c _) as [e'|penv]|]);
    run_monad; eexists _, _, _, _; (split; [reflexivity|]); congruence.
Qed.

(** X21: a release is only ever submitted for an image that was acquired
    without error, and it names that image: if [run] calls the release
    API, then build-only is not set, the configuration and the image were
    determined without error, and the submitted input carries the
    application's name, the tag of that image, the strategy flag in upper
    case when one is given, and the configuration's definition when it is
    not empty. *)
Theorem release_names_acquired_image (c : Collab) (ctx : Context) (s : Store)
        (input : api.DeployImageInput) :
  CallDeployImage input ∈ trace (run c ctx s) →
  flag_build_only (flags ctx) = false ∧
  ∃ cfg s1 t1 img s2 t2,
    determineAppConfig c ctx s = (Done (Some cfg, None), s1, t1) ∧
    determineImage c ctx (Some cfg) s1 = (Done (Some img, None), s2, t2) ∧
    api.AppID input = NameFromContext ctx ∧
    api.Image input = imgsrc.Tag img ∧
    api.Strategy input
    = (if nonempty (flag_strategy (flags ctx))
       then Some (ToUpper c (flag_strategy (flags ctx))) else None) ∧
    api.Definition_ input
    = (if bool_decide (0 < size (app.Definition_ cfg))
       then Some (app.Definition_ cfg) else None).
Proof.
  intros H.
  destruct (determineAppConfig_cases c ctx s) as (r1 & s1 & t1 & H1 & Hcfg).
  pose proof (emits_only_run _ _ _ _ _ _ (determineAppConfig_emits c ctx) H1) as E1.
  assert (N1 : ∀ i, CallDeployImage i ∉ t1)
    by (intros i; apply (forallb_not_elem _ _ _ E1); reflexivity).
  clear E1. unfold run in H.
  destruct r1 as [[cfg err]|msg].
  2: { rewrite (bind_panic _ _ _ _ _ _ H1) in H. exfalso. exact (N1 _ H). }
  rewrite (bind_run _ _ _ _ _ _ H1) in H.
  cbv beta iota zeta in H.
  destruct err as [e|].
  { run_monad_in H. elems H. exfalso. exact (N1 _ H). }
  destruct cfg as [cfg|]; [|exfalso; apply (Hcfg None); reflexivity]. clear Hcfg.
  destruct (determineImage c ctx (Some cfg) s1) as [[[[img [e|]]|msg] s2] t2] eqn:H2.
  - rewrite (bind_run _ _ _ _ _ _ H2) in H.
    pose proof (emits_only_run _ _ _ _ _ _ (determineImage_emits c ctx _) H2) as E2.
    run_monad_in H. elems H; exfalso; [exact (N1 _ H)|].
    revert H. apply (forallb_not_elem _ _ _ E2). reflexivity.
  - rewrite (bind_run _ _ _ _ _ _ H2) in H.
    pose proof (emits_only_run _ _ _ _ _ _ (determineImage_emits c ctx _) H2) as E2.
    assert (N2 : ∀ i, CallDeployImage i ∉ t2)
      by (intros i; apply (forallb_not_elem _ _ _ E2); reflexivity).
    clear E2. cbv beta iota zeta in H.
    destruct (flag_build_only (flags ctx)).
    { run_monad_in H. elems H; exfalso; [exact (N1 _ H)|exact (N2 _ H)]. }
    split; [reflexivity|].
    destruct img as [img|].
    { exists cfg, s1, t1, img, s2, t2. split; [exact H1|]. split; [exact H2|].
      unfold createRelease in H. run_monad_in H.
      destruct (DeployImage c _) as [[rel rc] [e|]]; simpl in H.
      - elems H; try (exfalso; first [exact (N1 _ H)|exact (N2 _ H)]).
        inversion H. repeat split; reflexivity.
      - destruct rel as [rel|]; simpl in H.
        + destruct (flag_detach (flags ctx)); simpl in H.
          * elems H; try (exfalso; first [exact (N1 _ H)|exact (N2 _ H)]).
            inversion H. repeat split; reflexivity.
          * destruct rc as [k|]; simpl in H;
              [destruct (watch_ReleaseCommand c _); simpl in H;
               [|destruct (GetAppRelease c _ _) as [[r'|] [e'|]]; simpl in H]|];
              try (destruct (String.eqb _ "IMMEDIATE"); simpl in H);
              elems H; try (exfalso; first [exact (N1 _ H)|exact (N2 _ H)]);
              inversion H; repeat split; reflexivity.
        + elems H; try (exfalso; first [exact (N1 _ H)|exact (N2 _ H)]).
          inversion H. repeat split; reflexivity. }
    exfalso. unfold createRelease in H. run_monad_in H.
    elems H; first [exact (N1 _ H)|exact (N2 _ H)].
  - rewrite (bind_panic _ _ _ _ _ _ H2) in H.
    pose proof (emits_only_run _ _ _ _ _ _ (determineImage_emits c ctx _) H2) as E2.
    run_monad_in H. elems H; exfalso; [exact (N1 _ H)|].
    revert H. apply (forallb_not_elem _ _ _ E2). reflexivity.
Qed.

Lemma release_names_acquired_image_witness :
  flag_build_only (flags (sample.ctx_of sample.flags0)) = false ∧
  ∃ cfg s1 t1 img s2 t2,
    determineAppConfig (sample.collab "" "" ∅) (sample.ctx_of sample.flags0)
      sample.store0 = (Done (Some cfg, None), s1, t1) ∧
    determineImage (sample.collab "" "" ∅) (sample.ctx_of sample.flags0)
      (Some cfg) s1 = (Done (Some img, None), s2, t2) ∧
    "demo" = "demo" ∧
    "registry/demo:1" = imgsrc.Tag img ∧
    @None string = None ∧
    @None (gmap string string)
    = (if bool_decide (0 < size (app.Definition_ cfg))
       then Some (app.Definition_ cfg) else None).
Proof.
  exact (release_names_acquired_image (sample.collab "" "" ∅)
           (sample.ctx_of sample.flags0) sample.store0
           {| api.AppID := "demo"; api.Image := "registry/demo:1";
              api.Strategy := None; api.Definition_ := None |}
           ltac:(vm_compute; find_elem)).
Defined.

(** ** A run with collaborators that keep their contracts *)

Section well_behaved.

Context (c : Collab) (ctx : Context) (Hc : well_behaved c).

Lemma determineImage_done cfg s :
  ∃ img err s2 t2,
    determineImage c ctx (Some cfg) s = (Done (img, err), s2, t2) ∧
    (err = None → img ≠ None).
Proof.
  destruct Hc as (Href & _ & _ & _ & Hbuilder).
  unfold determineImage. destruct (flag_nix (flags ctx)).
  - unfold NixSourceBuild.
    destruct (Retry_outcome c s) as (k & r & Hpoll & _).
    revert Hpoll. generalize (Retry (NixSourceBuild_fn c) 10). intros poll Hpoll.
    pose proof (Hbuilder (NameFromContext ctx)) as Hb.
    destruct (RemoteBuilderMachine c _) as [[m a] [e|]];
      [run_monad; eexists _, _, _, _; split; [reflexivity|congruence]|].
    destruct (Establish c) as [e|ac];
      [run_monad; eexists _, _, _, _; split; [reflexivity|congruence]|].
    destruct a as [a|]; [|exfalso; apply (Hb m); reflexivity].
    destruct (ConnectToTunnel c ac _) as [e|d];
      [run_monad; eexists _, _, _, _; split; [reflexivity|congruence]|].
    run_monad. rewrite Hpoll. destruct r as [e|]; simpl;
      [eexists _, _, _, _; split; [reflexivity|congruence]|].
    destruct (exec_Run c _ _) as [ex|];
      destruct (RunSSHCommand c a d _ _) as [es|resp]; simpl;
      eexists _, _, _, _; (split; [reflexivity|congruence]).
  - pose proof (fetchImageRef_no_error ctx (Some cfg)) as Herr.
    destruct (fetchImageRef ctx (Some cfg)) as [ref err]. simpl in Herr. subst err.
    destruct (nonempty ref).
    + run_monad.
      match goal with
      | |- context [ResolveReference c ?a ?b ?m] =>
          pose proof (Href a b m) as Hnn;
          destruct (ResolveReference c a b m) as [[img|] [e|]]
      end; eexists _, _, _, _; (split; [reflexivity|congruence]).
    + unfold mergeBuildArgs.
      destruct (ParseKVStringsToMap c _) as [e|cli];
        [destruct (app.Args _); run_monad;
         eexists _, _, _, _; (split; [reflexivity|congruence])|].
      destruct (resolveDockerfilePath c ctx cfg) as [path [e|]];
        [destruct (app.Args _); run_monad;
         eexists _, _, _, _; (split; [reflexivity|congruence])|].
      destruct (app.Args _); run_monad;
        match goal with
        | |- context [BuildImage c ?a ?b ?m] =>
            destruct (BuildImage c a b m) as [[img|] [e|]]
        end; simpl; eexists _, _, _, _; (split; [reflexivity|congruence]).
Qed.

(** X22: when the reference resolver, the release API, the configuration
    API and the builder lookup never answer with a nil value together with
    a nil error (for the builder lookup: a nil builder app), [run] never
    dereferences a nil pointer: for every context, store and outcome of
    the collaborators it returns, with an error or without. *)
Theorem run_never_panics (s : Store) : ∃ r, result (run c ctx s) = Done r.
Proof.
  destruct Hc as (_ & Hdeploy & Hget & Hconfig & _).
  destruct (determineAppConfig_done c ctx s Hconfig)
    as (cfg & err & s1 & t1 & H1 & Hcfg).
  unfold run. rewrite (bind_run _ _ _ _ _ _ H1). cbv beta iota zeta.
  destruct err as [e|]; [eexists; reflexivity|].
  destruct cfg as [cfg|]; [|exfalso; apply Hcfg; reflexivity].
  destruct (determineImage_done cfg s1) as (img & err & s2 & t2 & H2 & Himg).
  rewrite (bind_run _ _ _ _ _ _ H2). cbv beta iota zeta.
  destruct err as [e|]; [eexists; reflexivity|].
  destruct img as [img|]; [|exfalso; apply Himg; reflexivity].
  destruct (flag_build_only (flags ctx)); [eexists; reflexivity|].
  unfold createRelease. run_monad.
  match goal with
  | |- context [DeployImage c ?i] =>
      pose proof (Hdeploy i) as Hd; destruct (DeployImage c i) as [[rel rc] [e|]]
  end; simpl; [eexists; reflexivity|].
  destruct rel as [rel|]; [|exfalso; apply (Hd rc); reflexivity]. simpl.
  destruct (flag_detach (flags ctx)); simpl; [eexists; reflexivity|].
  destruct rc as [k|]; simpl.
  - destruct (watch_ReleaseCommand c _) as [e|]; simpl; [eexists; reflexivity|].
    pose proof (Hget (NameFromContext ctx) (api.ID rel)) as Hg.
    destruct (GetAppRelease c _ _) as [[r'|] [e|]]; simpl;
      try (eexists; reflexivity); [|congruence].
    destruct (String.eqb _ "IMMEDIATE"); simpl; eexists; reflexivity.
  - destruct (String.eqb _ "IMMEDIATE"); simpl; eexists; reflexivity.
Qed.

End well_behaved.

Lemma sample_well_behaved : well_behaved (sample.collab "" "" ∅).
Proof. repeat split; intros; discriminate. Qed.

Lemma run_never_panics_witness :
  ∃ r, result (run (sample.collab "" "" ∅)
                 (sample.ctx_of (sample.flags_with false false false "nginx:latest" "" ""))
                 sample.store0) = Done r.
Proof.
  exact (run_never_panics (sample.collab "" "" ∅)
           (sample.ctx_of (sample.flags_with false false false "nginx:latest" "" ""))
           sample_well_behaved sample.store0).
Defined.

(** ** Failures of a run, stage by stage *)

Section failures.

Context (c : Collab) (ctx : Context).

(** X23: end to end, build arguments that do not parse: with a local
    configuration, no env flag, no nix selector and no image reference,
    [run] returns an error whose message is the parse error's under the two
    prefixes [failed to fetch an image or build from source: ] and
    [invalid build args: ]; it wraps the parse error, and nothing is built
    or released. *)
Theorem run_invalid_build_args (s : Store) (cfg : app.Config) (e : error) :
  ConfigFromContext ctx = Some cfg →
  flag_env (flags ctx) = [] →
  flag_nix (flags ctx) = false →
  (fetchImageRef ctx (Some cfg)).1 = "" →
  ParseKVStringsToMap c (flag_build_arg (flags ctx)) = inl e →
  ∃ err,
    result (run c ctx s) = Done (Some err) ∧
    wraps err e ∧
    Error err
    = "failed to fetch an image or build from source: invalid build args: "
      +:+ Error e ∧
    ∀ ev, ev ∈ trace (run c ctx s) → is_acquire ev = false ∧ is_CallDeployImage ev = false.
Proof.
  intros Hcfg Henv Hnix Href Hparse.
  assert (Hf : fetchImageRef ctx (Some cfg) = ("", None)).
  { pose proof (fetchImageRef_no_error ctx (Some cfg)) as Herr.
    destruct (fetchImageRef ctx (Some cfg)) as [ref err]. simpl in *. congruence. }
  unfold run, determineAppConfig. rewrite Hcfg, Henv.
  unfold determineImage, mergeBuildArgs. rewrite Hnix, Hparse.
  run_monad. rewrite Hf. simpl.
  destruct (app.Build_ cfg) as [b|]; [destruct (app.Args b)|]; simpl;
    (eexists; split; [reflexivity|]);
    (split; [apply wraps_step, wraps_step, wraps_here|]);
    (split; [reflexivity|]);
    intros ev Hev; elems Hev; subst ev; split; reflexivity.
Qed.

(** X24: when the release API rejects the submission, [run] returns the
    API's error as it is; the release is not reported as created and
    nothing is watched, whatever the detach selector says and whatever
    release the API handed back with the error. *)
Theorem release_submit_failure (s : Store) cfg s1 t1 img s2 t2 rel rc (e : error) :
  determineAppConfig c ctx s = (Done (Some cfg, None), s1, t1) →
  determineImage c ctx (Some cfg) s1 = (Done (Some img, None), s2, t2) →
  flag_build_only (flags ctx) = false →
  (∀ input, DeployImage c input = (rel, rc, Some e)) →
  ∃ input,
    run c ctx s
    = (Done (Some e), s2,
       t1 ++ t2 ++ [NewTextBlock (Some "Creating release"); CallDeployImage input]) ∧
    api.Image input = imgsrc.Tag img.
Proof.
  intros H1 H2 Hbo Hdeploy. unfold run.
  rewrite (bind_run _ _ _ _ _ _ H1). cbv beta iota zeta.
  rewrite (bind_run _ _ _ _ _ _ H2). cbv beta iota zeta.
  rewrite Hbo. unfold createRelease. run_monad. rewrite Hdeploy. simpl.
  eexists. split; [reflexivity|reflexivity].
Qed.

(** X25: when a release command was produced and watching it fails, [run]
    returns that error without re-fetching the release or watching the
    deployment; when the command succeeds but the re-fetch fails, [run]
    returns the re-fetch error without watching the deployment. *)
Theorem release_command_failure (s : Store) cfg s1 t1 img s2 t2 rel k s3 t3 :
  determineAppConfig c ctx s = (Done (Some cfg, None), s1, t1) →
  determineImage c ctx (Some cfg) s1 = (Done (Some img, None), s2, t2) →
  flag_build_only (flags ctx) = false →
  createRelease c ctx (Some cfg) (Some img) s2
  = (Done (Some rel, Some k, None), s3, t3) →
  flag_detach (flags ctx) = false →
  (∀ e, watch_ReleaseCommand c (api.rc_ID k) = Some e →
        result (run c ctx s) = Done (Some e) ∧
        (∀ a id, CallGetAppRelease a id ∉ trace (run c ctx s)) ∧
        (∀ id, CallWatchDeployment id ∉ trace (run c ctx s)))
  ∧ (∀ r e, watch_ReleaseCommand c (api.rc_ID k) = None →
            GetAppRelease c (NameFromContext ctx) (api.ID rel) = (r, Some e) →
            result (run c ctx s) = Done (Some e) ∧
            (∀ id, CallWatchDeployment id ∉ trace (run c ctx s))).
Proof.
  intros H1 H2 Hbo H3 Hdetach.
  pose proof (emits_only_run _ _ _ _ _ _ (determineAppConfig_emits c ctx) H1) as E1.
  pose proof (emits_only_run _ _ _ _ _ _ (determineImage_emits c ctx _) H2) as E2.
  pose proof (emits_only_run _ _ _ _ _ _ (createRelease_emits c ctx _ _) H3) as E3.
  assert (N : ∀ ev, is_wait ev = true → (ev ∉ t1) ∧ (ev ∉ t2) ∧ (ev ∉ t3)).
  { intros ev Hw. repeat split; intros Hin.
    - apply (forallb_elem _ _ _ E1) in Hin. destruct ev; discriminate.
    - apply (forallb_elem _ _ _ E2) in Hin. destruct ev; discriminate.
    - apply (forallb_elem _ _ _ E3) in Hin. destruct ev; discriminate. }
  clear E1 E2 E3.
  unfold run.
  rewrite (bind_run _ _ _ _ _ _ H1). cbv beta iota zeta.
  rewrite (bind_run _ _ _ _ _ _ H2). cbv beta iota zeta.
  rewrite Hbo.
  rewrite (bind_run _ _ _ _ _ _ H3). cbv beta iota zeta.
  rewrite Hdetach.
  split.
  - intros e Hw. run_monad. rewrite Hw. simpl.
    split; [reflexivity|]. split.
    + intros a id Hin. destruct (N (CallGetAppRelease a id) eq_refl) as (N1 & N2 & N3).
      elems Hin; [exact (N1 Hin)|exact (N2 Hin)|exact (N3 Hin)].
    + intros id Hin. destruct (N (CallWatchDeployment id) eq_refl) as (N1 & N2 & N3).
      elems Hin; [exact (N1 Hin)|exact (N2 Hin)|exact (N3 Hin)].
  - intros r e Hw Hg. run_monad. rewrite Hw. simpl. rewrite Hg. simpl.
    split; [reflexivity|].
    intros id Hin. destruct (N (CallWatchDeployment id) eq_refl) as (N1 & N2 & N3).
    elems Hin; [exact (N1 Hin)|exact (N2 Hin)|exact (N3 Hin)].
Qed.

End failures.

Lemma run_invalid_build_args_witness :
  ∃ err,
    result (run (sample2.collab_of (λ _, inl sample2.boom) sample2.config_ok
                   (Some sample.image0, None) (None, None, None) None (None, None)
                   sample2.builder_fail (λ _, None) (inl sample2.boom) (inr "/proj"))
              (sample.ctx_of sample.flags0) sample.store0) = Done (Some err) ∧
    Error err
    = "failed to fetch an image or build from source: invalid build args: boom".
Proof.
  destruct (run_invalid_build_args
              (sample2.collab_of (λ _, inl sample2.boom) sample2.config_ok
                 (Some sample.image0, None) (None, None, None) None (None, None)
                 sample2.builder_fail (λ _, None) (inl sample2.boom) (inr "/proj"))
              (sample.ctx_of sample.flags0) sample.store0 sample.config0
              sample2.boom eq_refl eq_refl eq_refl eq_refl eq_refl)
    as (err & Hr & _ & He & _).
  exists err. split; [exact Hr|exact He].
Defined.

Lemma release_submit_failure_witness :
  ∃ input,
    result (run (sample2.collab_of (λ _, inr ∅) sample2.config_ok (Some sample.image0, None)
                   (Some sample.release0, None, Some sample2.boom) None (None, None)
                   sample2.builder_fail (λ _, None) (inl sample2.boom) (inr "/proj"))
              (sample.ctx_of sample.flags0) sample.store0) = Done (Some sample2.boom) ∧
    api.Image input = "registry/demo:1".
Proof.
  destruct (release_submit_failure
              (sample2.collab_of (λ _, inr ∅) sample2.config_ok (Some sample.image0, None)
                 (Some sample.release0, None, Some sample2.boom) None (None, None)
                 sample2.builder_fail (λ _, None) (inl sample2.boom) (inr "/proj"))
              (sample.ctx_of sample.flags0) sample.store0
              _ _ _ _ _ _ _ _ sample2.boom eq_refl eq_refl eq_refl (λ _, eq_refl))
    as (input & Hrun & Himg).
  exists input. rewrite Hrun. split; [reflexivity|exact Himg].
Defined.

Lemma release_command_failure_witness :
  result (run (sample2.collab_of (λ _, inr ∅) sample2.config_ok (Some sample.image0, None)
                 (Some sample.release0, Some sample.release_command0, None)
                 (Some sample2.boom) (None, None)
                 sample2.builder_fail (λ _, None) (inl sample2.boom) (inr "/proj"))
            (sample.ctx_of sample.flags0) sample.store0) = Done (Some sample2.boom).
Proof.
  exact (proj1 (proj1 (release_command_failure
           (sample2.collab_of (λ _, inr ∅) sample2.config_ok (Some sample.image0, None)
              (Some sample.release0, Some sample.release_command0, None)
              (Some sample2.boom) (None, None)
              sample2.builder_fail (λ _, None) (inl sample2.boom) (inr "/proj"))
           (sample.ctx_of sample.flags0) sample.store0
           _ _ _ _ _ _ _ _ _ _ eq_refl eq_refl eq_refl eq_refl eq_refl)
           sample2.boom eq_refl)).
Defined.

(** ** The options of a Docker build *)

(** X26: whenever [determineImage] calls the Docker build, the Dockerfile
    path was resolved without error and is the path in the options; the
    resolver may use the local daemon unless remote-only is set and the
    remote one unless local-only is set; the image is published unless
    build-only is set; and the cache flag, the image label, the application
    name and the working directory are those of the context. *)
Theorem build_options_from_context (c : Collab) (ctx : Context)
        (cfg : app.Config) (s : Store) r opts :
  CallBuildImage r opts ∈ trace (determineImage c ctx (Some cfg) s) →
  resolveDockerfilePath c ctx cfg = (imgsrc.DockerfilePath opts, None) ∧
  imgsrc.allowLocal (imgsrc.daemonType r) = negb (flag_remote_only (flags ctx)) ∧
  imgsrc.allowRemote (imgsrc.daemonType r) = negb (flag_local_only (flags ctx)) ∧
  imgsrc.Publish opts = negb (flag_build_only (flags ctx)) ∧
  imgsrc.NoCache opts = flag_no_cache (flags ctx) ∧
  imgsrc.ImageLabel opts = flag_image_label (flags ctx) ∧
  imgsrc.AppName opts = NameFromContext ctx ∧
  imgsrc.WorkingDir opts = WorkingDirectory ctx.
Proof.
  destruct (flag_nix (flags ctx)) eqn:Hnix.
  { intros H. exfalso. revert H.
    apply (forallb_not_elem nix_event); [|reflexivity].
    apply determineImage_nix_emits, Hnix. }
  unfold determineImage. rewrite Hnix.
  destruct (fetchImageRef ctx (Some cfg)) as [ref [e|]];
    [run_monad; intros H; elems H|].
  destruct (nonempty ref); [run_monad; intros H; elems H|].
  unfold mergeBuildArgs.
  destruct (ParseKVStringsToMap c _) as [e|cli];
    [destruct (app.Args _); run_monad; intros H; elems H|].
  destruct (resolveDockerfilePath c ctx cfg) as [path [e|]];
    [destruct (app.Args _); run_monad; intros H; elems H|].
  destruct (app.Args _); run_monad;
    match goal with
    | |- context [BuildImage c ?a ?b ?m] =>
        destruct (BuildImage c a b m) as [[img|] [e|]]
    end; simpl; intros H; elems H; inversion H; repeat split; reflexivity.
Qed.

Lemma build_options_from_context_witness :
  ∃ r opts,
    CallBuildImage r opts
    ∈ trace (determineImage (sample.collab "docker/Dockerfile" "" ∅)
               (sample.ctx_of (sample.flags_with false true false "" "" ""))
               (Some sample.config0) sample.store0) ∧
    imgsrc.DockerfilePath opts = "/proj/docker/Dockerfile" ∧
    imgsrc.Publish opts = false.
Proof.
  assert (Hin : ∃ r opts,
             CallBuildImage r opts
             ∈ trace (determineImage (sample.collab "docker/Dockerfile" "" ∅)
                        (sample.ctx_of (sample.flags_with false true false "" "" ""))
                        (Some sample.config0) sample.store0)).
  { eexists _, _. vm_compute. find_elem. }
  destruct Hin as (r & opts & Hin). exists r, opts. split; [exact Hin|].
  destruct (build_options_from_context _ _ _ _ _ _ Hin)
    as (Hpath & _ & _ & Hpub & _).
  split; [|exact Hpub].
  injection Hpath as <-. reflexivity.
Defined.
